(** * Battery cell simulation dashboard: session state, telemetry tick and
      task ledger

    A shallow embedding of the state-changing code of
    [battery_streamlit_app.py]: the helpers [generate_cell_data] and
    [simulate_real_time_data], and the button handlers of the pages
    "Setup Cells", "Add Tasks" and "Real-time Analysis" that write
    [st.session_state].

    Conventions of the embedding.
    - Python floats are idealised as exact rationals ([Q]); [round(x, n)]
      is round-half-to-even on the exact value, which is what CPython
      computes on the exact value of the float.  Module [Fp] writes the
      tick over an arbitrary float arithmetic, for the statement that
      depends on the exact values stored.
    - A Python [dict] is an insertion-ordered association list.
    - [random.uniform] and [random.randint] read their outcomes from an
      explicit source of draws that is threaded through the code.
    - [datetime.now()] is an input of the function that reads the clock; a
      [datetime] is a number of microseconds. *)

From Stdlib Require Import ZArith QArith Qround List String Ascii Bool Lia Lqa.
From Stdlib Require Import DecimalString DecimalNat.
Import ListNotations.

Open Scope string_scope.
Open Scope Z_scope.

(* ================================================================= *)
(** ** Python numerics *)

Module PyNum.

(** [max(a, b)]: the first argument is kept unless the second is
    strictly greater. *)
Definition py_max (a b : Q) : Q := if Qlt_le_dec a b then b else a.

(** [min(a, b)]: the first argument is kept unless the second is
    strictly smaller. *)
Definition py_min (a b : Q) : Q := if Qlt_le_dec b a then b else a.

(** The same on integers, used by the progress saturation. *)
Definition py_min_int (a b : Z) : Z := if b <? a then b else a.

(** Nearest integer, ties to the even neighbour. *)
Definition round_half_even (x : Q) : Z :=
  let f := Qfloor x in
  match ((x - inject_Z f) ?= (1 # 2))%Q with
  | Lt => f
  | Gt => f + 1
  | Eq => if Z.even f then f else f + 1
  end.

Definition pow10 (ndigits : nat) : Z := 10 ^ Z.of_nat ndigits.

(** [round(x, ndigits)] for a non-negative number of digits. *)
Definition py_round (x : Q) (ndigits : nat) : Q :=
  Qred (inject_Z (round_half_even (x * inject_Z (pow10 ndigits)))
        / inject_Z (pow10 ndigits)).

End PyNum.

(* ================================================================= *)
(** ** Insertion-ordered dictionaries with string keys *)

Module Dict.

Section WithValue.
Context {V : Type}.

Definition dict := list (string * V).

Definition empty : dict := [].

(** [len(d)] *)
Definition len (d : dict) : nat := List.length d.

(** [d[k]], [None] standing for [KeyError] *)
Fixpoint get (k : string) (d : dict) : option V :=
  match d with
  | [] => None
  | (k', v) :: d' => if String.eqb k k' then Some v else get k d'
  end.

(** [d[k] = v]: an existing key keeps its place, a new one goes last. *)
Fixpoint set (k : string) (v : V) (d : dict) : dict :=
  match d with
  | [] => [(k, v)]
  | (k', v') :: d' =>
      if String.eqb k k' then (k', v) :: d' else (k', v') :: set k v d'
  end.

(** [del d[k]] for a key that is present *)
Fixpoint del (k : string) (d : dict) : dict :=
  match d with
  | [] => []
  | (k', v') :: d' => if String.eqb k k' then d' else (k', v') :: del k d'
  end.

Definition keys (d : dict) : list string := map fst d.
Definition values (d : dict) : list V := map snd d.

(** Truth value of a dictionary: non-empty. *)
Definition truthy (d : dict) : bool :=
  match d with [] => false | _ :: _ => true end.

End WithValue.

Arguments dict V : clear implicits.

End Dict.

(* ================================================================= *)
(** ** The random module as a source of draws *)

Module Random.

(** The outcomes that the next calls of [random.uniform] and of
    [random.randint] will return, in call order. *)
Record Source := mkSource {
  uniform_draws : nat -> Q;
  randint_draws : nat -> Z
}.

(** A computation that consumes draws. *)
Definition Rand (A : Type) : Type := Source -> A * Source.

Definition ret {A} (a : A) : Rand A := fun s => (a, s).

Definition bind {A B} (m : Rand A) (k : A -> Rand B) : Rand B :=
  fun s => let (a, s') := m s in k a s'.

(** [random.uniform(a, b)]: the next uniform draw.  Python promises
    [a <= N <= b] for it; no property below depends on that promise. *)
Definition uniform (a b : Q) : Rand Q :=
  fun s => (uniform_draws s 0%nat,
            mkSource (fun n => uniform_draws s (S n)) (randint_draws s)).

(** [random.randint(a, b)]: the next integer draw.  Python promises
    [a <= N <= b]; see [randint_between]. *)
Definition randint (a b : Z) : Rand Z :=
  fun s => (randint_draws s 0%nat,
            mkSource (uniform_draws s) (fun n => randint_draws s (S n))).

(** Every integer draw of the source lies in [[a, b]]. *)
Definition randint_between (a b : Z) (s : Source) : Prop :=
  forall n, a <= randint_draws s n <= b.

(** A [for] loop over a list whose body consumes draws and yields the new
    element. *)
Fixpoint for_each {A B} (body : A -> Rand B) (xs : list A) : Rand (list B) :=
  match xs with
  | [] => ret []
  | x :: xs' =>
      bind (body x) (fun y =>
      bind (for_each body xs') (fun ys => ret (y :: ys)))
  end.

(** A [for] loop that threads an accumulator. *)
Fixpoint for_fold {A S} (body : S -> A -> Rand S) (acc : S) (xs : list A)
  : Rand S :=
  match xs with
  | [] => ret acc
  | x :: xs' => bind (body acc x) (fun acc' => for_fold body acc' xs')
  end.

End Random.

Notation "x <- m ;; k" := (Random.bind m (fun x => k))
  (at level 61, m at next level, right associativity).

(* ================================================================= *)
(** ** Strings *)

Module Str.

(** [str.lower()] on ASCII letters *)
Definition lower_ascii (c : ascii) : ascii :=
  let n := nat_of_ascii c in
  if andb (Nat.leb 65 n) (Nat.leb n 90) then ascii_of_nat (n + 32) else c.

Fixpoint lower (s : string) : string :=
  match s with
  | EmptyString => EmptyString
  | String c s' => String (lower_ascii c) (lower s')
  end.

(** [str(n)] for a non-negative integer *)
Definition of_nat (n : nat) : string :=
  NilEmpty.string_of_uint (Nat.to_uint n).

End Str.

(* ================================================================= *)
(** ** Records of the session state *)

(** A [datetime], in microseconds; [timedelta(seconds=n)] is a number of
    microseconds too. *)
Definition datetime := Z.

Definition timedelta_seconds (n : Z) : Z := n * 1000000.

Module Cell.

(** The dictionary built by [generate_cell_data]. *)
Record cell := mkCell {
  cell_id : string;
  type : string;
  voltage : Q;
  current : Q;
  temp : Q;
  capacity : Q;
  min_voltage : Q;
  max_voltage : Q;
  status : string
}.

End Cell.

Module Sample.

(** One entry of [historical_data]. *)
Record sample := mkSample {
  timestamp : datetime;
  cell_id : string;
  voltage : Q;
  current : Q;
  temp : Q;
  capacity : Q
}.

End Sample.

Module Task.

Inductive task_status := Pending | Running | Completed.

(** The fields the "Add Task" form collects, by task type. *)
Inductive task_form :=
| CC_CV (cc_cp : string) (cv_voltage current capacity : Q) (time_seconds : Z)
| IDLE (time_seconds : Z)
| CC_CD (cc_cp : string) (voltage capacity : Q) (time_seconds : Z).

(** A stored task: the form's fields with ["status"] and ["progress"]. *)
Record task := mkTask {
  form : task_form;
  status : task_status;
  progress : Z
}.

End Task.

Record SessionState := mkSession {
  cells_data : Dict.dict Cell.cell;
  tasks_data : Dict.dict Task.task;
  simulation_running : bool;
  historical_data : list Sample.sample;
  current_time : Z
}.

(* ================================================================= *)
(** ** The application code *)

Module App.

Import PyNum Random.

(** [initialize_session_state] on a fresh session *)
Definition initialize_session_state : SessionState :=
  mkSession Dict.empty Dict.empty false [] 0.

(* ----------------------------------------------------------------- *)
(** *** Cell registry *)

(** [generate_cell_data(cell_type, cell_id)] *)
Definition generate_cell_data (cell_type : string) (cell_id : nat)
  : Rand Cell.cell :=
  let is_lfp := String.eqb (Str.lower cell_type) "lfp" in
  let voltage := (if is_lfp then 3.2 else 3.6)%Q in
  let min_voltage := (if is_lfp then 2.8 else 3.2)%Q in
  let max_voltage := (if is_lfp then 3.6 else 4.0)%Q in
  u <- uniform 0.1 2.0 ;;
  let current := py_round u 2 in
  w <- uniform 25 40 ;;
  let temp := py_round w 1 in
  let capacity := py_round (voltage * current) 2 in
  ret (Cell.mkCell
         ("cell_" ++ Str.of_nat cell_id ++ "_" ++ cell_type)
         cell_type voltage current temp capacity
         min_voltage max_voltage "Active").

(** The key under which the "Add Cells" handler stores cell number [n]. *)
Definition cell_key (cell_type : string) (n : nat) : string :=
  "cell_" ++ Str.of_nat n ++ "_" ++ Str.lower cell_type.

(** One iteration of the loop of the "Add Cells" handler. *)
Definition add_cell (cell_type : string) (start_id : nat)
    (cells : Dict.dict Cell.cell) (i : nat) : Rand (Dict.dict Cell.cell) :=
  c <- generate_cell_data (Str.lower cell_type) (start_id + i) ;;
  ret (Dict.set (cell_key cell_type (start_id + i)) c cells).

(** The loop of the "Add Cells" handler over [range(cell_count)]. *)
Definition add_cells_loop (cell_type : string) (start_id : nat)
    (cells : Dict.dict Cell.cell) (cell_count : nat)
  : Rand (Dict.dict Cell.cell) :=
  for_fold (add_cell cell_type start_id) cells (seq 0 cell_count).

(** The "Add Cells" form handler: [create_cells(chemistry, count)]. *)
Definition create_cells (cell_type : string) (cell_count : nat)
    (st : SessionState) : Rand SessionState :=
  let start_id := (Dict.len (cells_data st) + 1)%nat in
  cells <- add_cells_loop cell_type start_id (cells_data st) cell_count ;;
  ret (mkSession cells (tasks_data st) (simulation_running st)
         (historical_data st) (current_time st)).

(** The values clamped by one iteration of the tick, before rounding. *)
Definition new_voltage (c : Cell.cell) (voltage_change : Q) : Q :=
  py_max (Cell.min_voltage c)
    (py_min (Cell.max_voltage c) (Cell.voltage c + voltage_change)%Q).

Definition new_temp (c : Cell.cell) (temp_change : Q) : Q :=
  py_max 20 (py_min 50 (Cell.temp c + temp_change)%Q).

Definition new_current (c : Cell.cell) (current_change : Q) : Q :=
  py_max 0 (Cell.current c + current_change)%Q.

(** The four stores of one iteration into the cell's dictionary, with the
    sums and the product taken exactly; [Fp.store_cell] is the same over
    any arithmetic. *)
Definition store_cell (c : Cell.cell)
    (voltage_change temp_change current_change : Q) : Cell.cell :=
  let nv := new_voltage c voltage_change in
  let nt := new_temp c temp_change in
  let nc := new_current c current_change in
  Cell.mkCell (Cell.cell_id c) (Cell.type c)
    (py_round nv 2) (py_round nc 2) (py_round nt 1)
    (py_round (nv * nc) 2)
    (Cell.min_voltage c) (Cell.max_voltage c) (Cell.status c).

(** The body of the first loop of [simulate_real_time_data].  [cell_data]
    is the object stored under [cell_id], so the stores rewrite that entry
    where it stands. *)
Definition update_cell (item : string * Cell.cell)
  : Rand (string * Cell.cell) :=
  let (cell_id, cell_data) := item in
  voltage_change <- uniform (-0.05) 0.05 ;;
  temp_change <- uniform (-1) 1 ;;
  current_change <- uniform (-0.1) 0.1 ;;
  ret (cell_id,
       store_cell cell_data voltage_change temp_change current_change).

(** The dictionary appended to [historical_data] for one cell. *)
Definition sample_of (timestamp : datetime) (item : string * Cell.cell)
  : Sample.sample :=
  let (cell_id, cell_data) := item in
  Sample.mkSample timestamp cell_id
    (Cell.voltage cell_data) (Cell.current cell_data)
    (Cell.temp cell_data) (Cell.capacity cell_data).

(** [simulate_real_time_data()], with the reading [now] of
    [datetime.now()]. *)
Definition simulate_real_time_data (now : datetime) (st : SessionState)
  : Rand SessionState :=
  if Dict.truthy (cells_data st) then
    cells <- for_each update_cell (cells_data st) ;;
    let timestamp := now + timedelta_seconds (current_time st) in
    ret (mkSession cells (tasks_data st) (simulation_running st)
           (historical_data st ++ map (sample_of timestamp) cells)
           (current_time st + 1))
  else ret st.

(** The "Clear All Cells" button *)
Definition clear_all_cells (st : SessionState) : SessionState :=
  mkSession Dict.empty (tasks_data st) (simulation_running st) []
    (current_time st).

(** The "Clear History" button *)
Definition clear_history (st : SessionState) : SessionState :=
  mkSession (cells_data st) (tasks_data st) (simulation_running st) [] 0.

(** [n] ticks in a row, one clock reading each. *)
Fixpoint run_ticks (nows : list datetime) (st : SessionState)
  : Rand SessionState :=
  match nows with
  | [] => ret st
  | now :: nows' =>
      st' <- simulate_real_time_data now st ;; run_ticks nows' st'
  end.

(* ----------------------------------------------------------------- *)
(** *** Task ledger *)

(** The id the "Add Task" handler computes: [f"task_{len(...) + 1}"]. *)
Definition next_task_id (tasks : Dict.dict Task.task) : string :=
  "task_" ++ Str.of_nat (Dict.len tasks + 1).

(** The "Add Task" form handler *)
Definition add_task (task_data : Task.task_form) (st : SessionState)
  : SessionState :=
  let task_id := next_task_id (tasks_data st) in
  mkSession (cells_data st)
    (Dict.set task_id (Task.mkTask task_data Task.Pending 0) (tasks_data st))
    (simulation_running st) (historical_data st) (current_time st).

Definition with_tasks (st : SessionState) (tasks : Dict.dict Task.task)
  : SessionState :=
  mkSession (cells_data st) tasks (simulation_running st)
    (historical_data st) (current_time st).

(** The "Start" button of a task; [None] is the [KeyError] of an unknown
    id. *)
Definition start_task (task_id : string) (st : SessionState)
  : option SessionState :=
  match Dict.get task_id (tasks_data st) with
  | Some t =>
      Some (with_tasks st
              (Dict.set task_id
                 (Task.mkTask (Task.form t) Task.Running (Task.progress t))
                 (tasks_data st)))
  | None => None
  end.

(** The "Delete" button of a task *)
Definition delete_task (task_id : string) (st : SessionState)
  : option SessionState :=
  match Dict.get task_id (tasks_data st) with
  | Some _ => Some (with_tasks st (Dict.del task_id (tasks_data st)))
  | None => None
  end.

(** The body of the task progress loop for one task. *)
Definition advance_task (item : string * Task.task)
  : Rand (string * Task.task) :=
  let (task_id, task_data) := item in
  match Task.status task_data with
  | Task.Running =>
      r <- randint 1 5 ;;
      let progress := py_min_int 100 (Task.progress task_data + r) in
      ret (task_id,
           Task.mkTask (Task.form task_data)
             (if 100 <=? progress then Task.Completed else Task.Running)
             progress)
  | _ => ret item
  end.

(** The task progress loop of the "Real-time Analysis" page:
    [advance_progress()].  The page runs it each time it is rendered to
    its end, which needs a non-empty registry and a paused simulation. *)
Definition advance_progress (st : SessionState) : Rand SessionState :=
  if Dict.truthy (tasks_data st) then
    tasks <- for_each advance_task (tasks_data st) ;;
    ret (with_tasks st tasks)
  else ret st.

(** [n] calls of [advance_progress] in a row. *)
Fixpoint advance_progress_n (n : nat) (st : SessionState)
  : Rand SessionState :=
  match n with
  | O => ret st
  | S n' => st' <- advance_progress st ;; advance_progress_n n' st'
  end.

End App.

(* ================================================================= *)
(** ** Chemistries, invariants and reachable sessions *)

Module Inv.

Import PyNum Random.

(** The two entries of the "Cell Type" select box. *)
Inductive chemistry := LFP | NMC.

Definition label (ch : chemistry) : string :=
  match ch with LFP => "LFP" | NMC => "NMC" end.

Definition nominal_voltage (ch : chemistry) : Q :=
  match ch with LFP => 3.2 | NMC => 3.6 end%Q.

Definition lower_bound (ch : chemistry) : Q :=
  match ch with LFP => 2.8 | NMC => 3.2 end%Q.

Definition upper_bound (ch : chemistry) : Q :=
  match ch with LFP => 3.6 | NMC => 4.0 end%Q.

(** The voltage bounds of a cell form an interval whose ends have at most
    two decimals, as the bounds written by [generate_cell_data] do. *)
Definition bounds_ok (c : Cell.cell) : Prop :=
  (Cell.min_voltage c <= Cell.max_voltage c
   /\ py_round (Cell.min_voltage c) 2 == Cell.min_voltage c
   /\ py_round (Cell.max_voltage c) 2 == Cell.max_voltage c)%Q.

(** Voltage within the cell's own bounds, temperature within [[20, 50]],
    current non-negative. *)
Definition in_range (c : Cell.cell) : Prop :=
  (Cell.min_voltage c <= Cell.voltage c
   /\ Cell.voltage c <= Cell.max_voltage c
   /\ 20 <= Cell.temp c /\ Cell.temp c <= 50
   /\ 0 <= Cell.current c)%Q.

Definition registry_bounds_ok (st : SessionState) : Prop :=
  Forall bounds_ok (Dict.values (cells_data st)).

Definition registry_in_range (st : SessionState) : Prop :=
  Forall in_range (Dict.values (cells_data st)).

(** The progress of a task is a percentage. *)
Definition progress_ok (t : Task.task) : Prop :=
  0 <= Task.progress t <= 100.

Definition ledger_ok (st : SessionState) : Prop :=
  Forall progress_ok (Dict.values (tasks_data st)).

(** One user action or one refresh of the application. *)
Inductive step : SessionState -> SessionState -> Prop :=
| step_create_cells ch count src st :
    (1 <= count <= 20)%nat ->
    step st (fst (App.create_cells (label ch) count st src))
| step_tick now src st :
    step st (fst (App.simulate_real_time_data now st src))
| step_clear_all_cells st :
    step st (App.clear_all_cells st)
| step_clear_history st :
    step st (App.clear_history st)
| step_set_running b st :
    step st (mkSession (cells_data st) (tasks_data st) b
               (historical_data st) (current_time st))
| step_add_task f st :
    step st (App.add_task f st)
| step_start_task task_id st st' :
    App.start_task task_id st = Some st' -> step st st'
| step_delete_task task_id st st' :
    App.delete_task task_id st = Some st' -> step st st'
| step_advance_progress src st :
    randint_between 1 5 src ->
    step st (fst (App.advance_progress st src)).

(** The sessions the application can be in. *)
Inductive reachable : SessionState -> Prop :=
| reachable_init : reachable App.initialize_session_state
| reachable_step st st' : reachable st -> step st st' -> reachable st'.

(** What one tick does to one entry of the registry: the key stays, and
    the cell is rewritten by [store_cell] for some three draws. *)
Definition ticked (item item' : string * Cell.cell) : Prop :=
  fst item' = fst item /\
  exists voltage_change temp_change current_change,
    snd item' =
    App.store_cell (snd item) voltage_change temp_change current_change.

(** What one call of [advance_progress] does to one task. *)
Definition advanced (t t' : Task.task) : Prop :=
  match Task.status t with
  | Task.Running =>
      exists r, 1 <= r <= 5
        /\ Task.progress t' = Z.min 100 (Task.progress t + r)
        /\ Task.status t' =
           (if Task.progress t' =? 100 then Task.Completed else Task.Running)
        /\ Task.form t' = Task.form t
  | _ => t' = t
  end.

(** How one task may differ after [n] calls of [advance_progress]. *)
Definition evolves (n : nat) (t t' : Task.task) : Prop :=
  Task.form t' = Task.form t
  /\ Task.progress t <= Task.progress t' <= 100
  /\ (n = 0%nat -> t' = t)
  /\ (Task.status t <> Task.Running -> t' = t)
  /\ (Task.status t = Task.Running -> (1 <= n)%nat ->
      Task.status t' =
      if Task.progress t' =? 100 then Task.Completed else Task.Running)
  /\ (Task.status t = Task.Running ->
      Z.min 100 (Task.progress t + Z.of_nat n) <= Task.progress t').

(** Entries of two ledgers with the same key and related tasks. *)
Definition same_key (R : Task.task -> Task.task -> Prop)
    (item item' : string * Task.task) : Prop :=
  fst item' = fst item /\ R (snd item) (snd item').

End Inv.

(* ================================================================= *)
(** ** Concrete sessions used by the examples *)

Module Examples.

Import Random.

(** A source whose uniform draws are the listed ones (then zeros) and
    whose integer draws are all [k]. *)
Definition source_of (us : list Q) (k : Z) : Source :=
  mkSource (fun n => nth n us 0%Q) (fun _ => k).

(** One LFP cell is created with current 1.0 A and temperature 30.0; the
    next tick then draws the changes +0.004 V, 0 and +0.004 A. *)
Definition one_cell_source : Source :=
  source_of [1; 30; 0.004; 0; 0.004]%Q 1.

Definition one_cell_created : SessionState * Source :=
  App.create_cells "LFP" 1 App.initialize_session_state one_cell_source.

(** The session with one LFP cell and no tick yet. *)
Definition one_cell : SessionState := fst one_cell_created.

(** That session after one tick read at clock [now]. *)
Definition one_cell_ticked (now : datetime) : SessionState :=
  fst (App.simulate_real_time_data now one_cell (snd one_cell_created)).

(** A ledger with one IDLE task of 1800 seconds, then started. *)
Definition idle_added : SessionState :=
  App.add_task (Task.IDLE 1800) App.initialize_session_state.

Definition idle_started : SessionState :=
  match App.start_task "task_1" idle_added with
  | Some st => st
  | None => idle_added
  end.

(** Two tasks are added and the first one is deleted. *)
Definition two_added : SessionState :=
  App.add_task (Task.IDLE 20)
    (App.add_task (Task.IDLE 10) App.initialize_session_state).

Definition first_deleted : SessionState :=
  match App.delete_task "task_1" two_added with
  | Some st => st
  | None => two_added
  end.

(** The started IDLE task after 20 calls that each draw 5, and the session
    after its "Start" button is pressed again. *)
Definition idle_completed : SessionState :=
  fst (App.advance_progress_n 20 idle_started (source_of [] 5)).

Definition idle_restarted : SessionState :=
  match App.start_task "task_1" idle_completed with
  | Some st => st
  | None => idle_completed
  end.

(** The session with one LFP cell and one started IDLE task. *)
Definition one_cell_with_task : SessionState :=
  match App.start_task "task_1" (App.add_task (Task.IDLE 1800) one_cell) with
  | Some st => st
  | None => one_cell
  end.

(** The cell of [one_cell], as "Add Cells" generated it. *)
Definition lfp_cell : Cell.cell :=
  fst (App.generate_cell_data "lfp" 1 one_cell_source).

End Examples.

(* ================================================================= *)
(** ** The "Real-time Analysis" page *)

Module Pages.

Import PyNum Random.

(** The four buttons of the control panel of "Real-time Analysis". *)
Inductive analysis_button :=
| StartSimulation
| PauseSimulation
| UpdateData
| ClearHistory.

Definition set_running (b : bool) (st : SessionState) : SessionState :=
  mkSession (cells_data st) (tasks_data st) b (historical_data st)
    (current_time st).

(** The buttons are tested in page order; at most one is pressed in a
    run.  This is the state when the run reaches the auto-refresh test,
    for a button other than "Update Data". *)
Definition after_buttons (pressed : option analysis_button)
    (st : SessionState) : SessionState :=
  match pressed with
  | Some StartSimulation => set_running true st
  | Some PauseSimulation => set_running false st
  | Some ClearHistory => App.clear_history st
  | Some UpdateData | None => st
  end.

(** One run of the "Real-time Analysis" page.  With an empty registry only
    a warning is shown.  Otherwise "Update Data" ticks and reruns; a
    running simulation ticks and reruns; [st.rerun()] ends the run, so the
    task progress loop is reached only past both. *)
Definition analysis_page (pressed : option analysis_button) (now : datetime)
    (st : SessionState) : Rand SessionState :=
  if negb (Dict.truthy (cells_data st)) then ret st
  else
    match pressed with
    | Some UpdateData => App.simulate_real_time_data now st
    | _ =>
        let st1 := after_buttons pressed st in
        if simulation_running st1
        then App.simulate_real_time_data now st1
        else App.advance_progress st1
    end.

End Pages.

(* ================================================================= *)
(** ** Shapes of keys and further invariants *)

Module Shape.

Import PyNum Random Inv.

(** The character ['_'] does not occur in the string. *)
Fixpoint no_underscore (s : string) : bool :=
  match s with
  | EmptyString => true
  | String c s' => negb (Ascii.eqb c "_") && no_underscore s'
  end.

(** The entries of a registry, counted from [a], are stored under the
    keys [cell_a_<type>], [cell_(a+1)_<type>], ... and carry their key as
    ["cell_id"]. *)
Fixpoint keyed_from (a : nat) (cells : Dict.dict Cell.cell) : Prop :=
  match cells with
  | [] => True
  | (k, c) :: rest =>
      (Cell.cell_id c = k /\ exists ch, k = App.cell_key (label ch) a)
      /\ keyed_from (S a) rest
  end.

(** The cell has the type and the bounds of a chemistry. *)
Definition chem_cell (c : Cell.cell) : Prop :=
  exists ch,
    Cell.type c = Str.lower (label ch)
    /\ Cell.min_voltage c = lower_bound ch
    /\ Cell.max_voltage c = upper_bound ch.

Definition voltage_in_bounds (c : Cell.cell) : Prop :=
  (Cell.min_voltage c <= Cell.voltage c
   /\ Cell.voltage c <= Cell.max_voltage c)%Q.

(** A sample that belongs to a cell of the registry and holds readings a
    tick can produce. *)
Definition sample_ok (cells : Dict.dict Cell.cell) (smp : Sample.sample)
  : Prop :=
  In (Sample.cell_id smp) (Dict.keys cells)
  /\ (2.8 <= Sample.voltage smp /\ Sample.voltage smp <= 4.0
      /\ 20 <= Sample.temp smp /\ Sample.temp smp <= 50
      /\ 0 <= Sample.current smp /\ 0 <= Sample.capacity smp)%Q.

Definition task_key (n : nat) : string := "task_" ++ Str.of_nat n.

(** The keys of the ledger are [task_1], ..., [task_n], in this order. *)
Definition sequential (tasks : Dict.dict Task.task) : Prop :=
  Dict.keys tasks = map task_key (seq 1 (Dict.len tasks)).

(** What holds of every session the application reaches. *)
Definition session_ok (st : SessionState) : Prop :=
  keyed_from 1 (cells_data st)
  /\ Forall chem_cell (Dict.values (cells_data st))
  /\ Forall voltage_in_bounds (Dict.values (cells_data st))
  /\ Forall (sample_ok (cells_data st)) (historical_data st)
  /\ NoDup (Dict.keys (tasks_data st))
  /\ 0 <= current_time st.

(** Entry number [i] of a batch: stored under the key of its number and
    built by [generate_cell_data] for that number. *)
Definition batch_item (ch : chemistry) (start_id : nat)
    (i : nat) (item : string * Cell.cell) : Prop :=
  fst item = App.cell_key (label ch) (start_id + i)
  /\ exists s0,
       snd item =
       fst (App.generate_cell_data (Str.lower (label ch)) (start_id + i) s0).

(** The static fields of a cell. *)
Definition same_identity (c c' : Cell.cell) : Prop :=
  Cell.cell_id c' = Cell.cell_id c
  /\ Cell.type c' = Cell.type c
  /\ Cell.min_voltage c' = Cell.min_voltage c
  /\ Cell.max_voltage c' = Cell.max_voltage c
  /\ Cell.status c' = Cell.status c.

(** Entries of two registries with the same key and the same static
    fields. *)
Definition same_cell (item item' : string * Cell.cell) : Prop :=
  fst item' = fst item /\ same_identity (snd item) (snd item').

End Shape.

(* ================================================================= *)
(** ** The tick over any float arithmetic *)

(** In [App] the float addition, the float multiplication and [round] of
    the tick are taken on exact rationals.  Here the tick is written over
    an arbitrary arithmetic on the values, of which binary64 is one
    instance and the exact one of [App] another; the comparisons of [max]
    and [min] are exact on floats as they are on rationals. *)

Module Fp.

Import PyNum Random.

(** The three operations of the tick that round their result. *)
Record arith := mkArith {
  add : Q -> Q -> Q;
  mul : Q -> Q -> Q;
  round : Q -> nat -> Q
}.

(** The arithmetic of [App]. *)
Definition exact : arith := mkArith Qplus Qmult py_round.

Section WithArith.

Variable A : arith.

Definition new_voltage (c : Cell.cell) (voltage_change : Q) : Q :=
  py_max (Cell.min_voltage c)
    (py_min (Cell.max_voltage c) (add A (Cell.voltage c) voltage_change)).

Definition new_temp (c : Cell.cell) (temp_change : Q) : Q :=
  py_max 20 (py_min 50 (add A (Cell.temp c) temp_change)).

Definition new_current (c : Cell.cell) (current_change : Q) : Q :=
  py_max 0 (add A (Cell.current c) current_change).

Definition store_cell (c : Cell.cell)
    (voltage_change temp_change current_change : Q) : Cell.cell :=
  let nv := new_voltage c voltage_change in
  let nt := new_temp c temp_change in
  let nc := new_current c current_change in
  Cell.mkCell (Cell.cell_id c) (Cell.type c)
    (round A nv 2) (round A nc 2) (round A nt 1)
    (round A (mul A nv nc) 2)
    (Cell.min_voltage c) (Cell.max_voltage c) (Cell.status c).

Definition update_cell (item : string * Cell.cell)
  : Rand (string * Cell.cell) :=
  let (cell_id, cell_data) := item in
  voltage_change <- uniform (-0.05) 0.05 ;;
  temp_change <- uniform (-1) 1 ;;
  current_change <- uniform (-0.1) 0.1 ;;
  ret (cell_id,
       store_cell cell_data voltage_change temp_change current_change).

(** [simulate_real_time_data()] over the arithmetic [A]. *)
Definition simulate_real_time_data (now : datetime) (st : SessionState)
  : Rand SessionState :=
  if Dict.truthy (cells_data st) then
    cells <- for_each update_cell (cells_data st) ;;
    let timestamp := now + timedelta_seconds (current_time st) in
    ret (mkSession cells (tasks_data st) (simulation_running st)
           (historical_data st ++ map (App.sample_of timestamp) cells)
           (current_time st + 1))
  else ret st.

End WithArith.

End Fp.

(* ================================================================= *)
(** ** Actions that spare one task *)

Module Sparing.

Import Random Inv.

(** One user action or one refresh of the application, as in [Inv.step],
    that is not "Start" or "Delete" of the task [id] and not an "Add Task"
    whose computed id is [id]. *)
Inductive step (id : string) : SessionState -> SessionState -> Prop :=
| step_create_cells ch count src st :
    (1 <= count <= 20)%nat ->
    step id st (fst (App.create_cells (label ch) count st src))
| step_tick now src st :
    step id st (fst (App.simulate_real_time_data now st src))
| step_clear_all_cells st :
    step id st (App.clear_all_cells st)
| step_clear_history st :
    step id st (App.clear_history st)
| step_set_running b st :
    step id st (mkSession (cells_data st) (tasks_data st) b
                  (historical_data st) (current_time st))
| step_add_task f st :
    App.next_task_id (tasks_data st) <> id ->
    step id st (App.add_task f st)
| step_start_task task_id st st' :
    task_id <> id ->
    App.start_task task_id st = Some st' -> step id st st'
| step_delete_task task_id st st' :
    task_id <> id ->
    App.delete_task task_id st = Some st' -> step id st st'
| step_advance_progress src st :
    randint_between 1 5 src ->
    step id st (fst (App.advance_progress st src)).

(** Any number of such actions in a row. *)
Inductive steps (id : string) : SessionState -> SessionState -> Prop :=
| steps_nil st : steps id st st
| steps_cons st st1 st2 :
    step id st st1 -> steps id st1 st2 -> steps id st st2.

End Sparing.

(* ================================================================= *)
(** ** Properties of the numeric helpers *)

Module PyNumFacts.

Import PyNum.

Local Open Scope Q_scope.

Lemma py_max_l (a b : Q) : a <= py_max a b.
Proof. unfold py_max. destruct (Qlt_le_dec a b); lra. Qed.

Lemma py_max_r (a b : Q) : b <= py_max a b.
Proof. unfold py_max. destruct (Qlt_le_dec a b); lra. Qed.

Lemma py_max_lub (a b c : Q) : a <= c -> b <= c -> py_max a b <= c.
Proof. unfold py_max. destruct (Qlt_le_dec a b); lra. Qed.

Lemma py_min_l (a b : Q) : py_min a b <= a.
Proof. unfold py_min. destruct (Qlt_le_dec b a); lra. Qed.

Lemma py_min_r (a b : Q) : py_min a b <= b.
Proof. unfold py_min. destruct (Qlt_le_dec b a); lra. Qed.

(** A clamp [max(lo, min(hi, x))] lands in [[lo, hi]] when [lo <= hi]. *)
Lemma clamp_between (lo hi x : Q) :
  lo <= hi -> lo <= py_max lo (py_min hi x) <= hi.
Proof.
  intros Hle. split.
  - apply py_max_l.
  - apply py_max_lub; [exact Hle | apply py_min_l].
Qed.

Lemma py_min_int_spec (a b : Z) : py_min_int a b = Z.min a b.
Proof. unfold py_min_int. destruct (Z.ltb_spec b a); lia. Qed.

Lemma round_half_even_floor (x : Q) :
  (Qfloor x <= round_half_even x <= Qfloor x + 1)%Z.
Proof.
  unfold round_half_even.
  destruct (x - inject_Z (Qfloor x) ?= 1 # 2); try lia.
  destruct (Z.even (Qfloor x)); lia.
Qed.

(** Rounding to the nearest integer never crosses an integer. *)
Lemma round_half_even_ge (n : Z) (x : Q) :
  inject_Z n <= x -> (n <= round_half_even x)%Z.
Proof.
  intros H. apply Qfloor_resp_le in H. rewrite Qfloor_Z in H.
  pose proof (round_half_even_floor x). lia.
Qed.

Lemma round_half_even_le (n : Z) (x : Q) :
  x <= inject_Z n -> (round_half_even x <= n)%Z.
Proof.
  intros H.
  destruct (Qlt_le_dec x (inject_Z n)) as [Hlt | Hge].
  - assert (Qfloor x < n)%Z.
    { apply Z.lt_nge. intros Hn.
      pose proof (Qfloor_le x) as Hf.
      rewrite Zle_Qle in Hn. lra. }
    pose proof (round_half_even_floor x). lia.
  - assert (Hx : x == inject_Z n) by lra.
    unfold round_half_even.
    rewrite (Qfloor_comp _ _ Hx), Qfloor_Z.
    assert (Hc : (x - inject_Z n ?= 1 # 2) = Lt).
    { rewrite <- Qlt_alt. lra. }
    rewrite Hc. lia.
Qed.

Lemma round_half_even_Z (n : Z) : round_half_even (inject_Z n) = n.
Proof.
  apply Z.le_antisymm.
  - apply round_half_even_le. lra.
  - apply round_half_even_ge. lra.
Qed.

Lemma pow10_pos (d : nat) : (0 < pow10 d)%Z.
Proof. unfold pow10. apply Z.pow_pos_nonneg; lia. Qed.

Lemma pow10_Qpos (d : nat) : 0 < inject_Z (pow10 d).
Proof.
  pose proof (pow10_pos d) as H. rewrite Zlt_Qlt in H. exact H.
Qed.

(** The value of [round(x, d)] as a fraction. *)
Lemma py_round_eq (x : Q) (d : nat) :
  py_round x d ==
  inject_Z (round_half_even (x * inject_Z (pow10 d))) / inject_Z (pow10 d).
Proof. unfold py_round. apply Qred_correct. Qed.

(** [round(x, d)] does not fall below a bound with at most [d] decimals. *)
Lemma py_round_ge (k : Z) (x : Q) (d : nat) :
  inject_Z k / inject_Z (pow10 d) <= x ->
  inject_Z k / inject_Z (pow10 d) <= py_round x d.
Proof.
  intros H. rewrite py_round_eq.
  pose proof (pow10_Qpos d) as Hp.
  assert (Hk : inject_Z k <= x * inject_Z (pow10 d)).
  { apply (Qmult_le_r _ _ _ Hp) in H.
    setoid_replace (inject_Z k / inject_Z (pow10 d) * inject_Z (pow10 d))
      with (inject_Z k) in H by (field; lra).
    exact H. }
  apply round_half_even_ge in Hk. rewrite Zle_Qle in Hk.
  apply Qle_shift_div_l; [exact Hp |].
  setoid_replace (inject_Z k / inject_Z (pow10 d) * inject_Z (pow10 d))
    with (inject_Z k) by (field; lra).
  exact Hk.
Qed.

(** [round(x, d)] does not exceed a bound with at most [d] decimals. *)
Lemma py_round_le (k : Z) (x : Q) (d : nat) :
  x <= inject_Z k / inject_Z (pow10 d) ->
  py_round x d <= inject_Z k / inject_Z (pow10 d).
Proof.
  intros H. rewrite py_round_eq.
  pose proof (pow10_Qpos d) as Hp.
  assert (Hk : x * inject_Z (pow10 d) <= inject_Z k).
  { apply (Qmult_le_r _ _ _ Hp) in H.
    setoid_replace (inject_Z k / inject_Z (pow10 d) * inject_Z (pow10 d))
      with (inject_Z k) in H by (field; lra).
    exact H. }
  apply round_half_even_le in Hk. rewrite Zle_Qle in Hk.
  apply Qle_shift_div_r; [exact Hp |].
  setoid_replace (inject_Z k / inject_Z (pow10 d) * inject_Z (pow10 d))
    with (inject_Z k) by (field; lra).
  exact Hk.
Qed.

End PyNumFacts.

(* ================================================================= *)
(** ** Properties of loops that consume draws *)

Module RandomFacts.

Import Random.

(** A loop relates each element to the element it yields, provided the
    body does so and keeps the condition [P] on the source. *)
Lemma for_each_Forall2 {A B} (P : Source -> Prop) (R : A -> B -> Prop)
    (body : A -> Rand B) :
  (forall x s, P s -> R x (fst (body x s)) /\ P (snd (body x s))) ->
  forall xs s, P s ->
    Forall2 R xs (fst (for_each body xs s)) /\ P (snd (for_each body xs s)).
Proof.
  intros Hbody xs. induction xs as [| x xs IH]; intros s Hs; simpl.
  - split; [constructor | exact Hs].
  - unfold bind. destruct (Hbody x s Hs) as [Hx Hs'].
    destruct (body x s) as [y s1]; simpl in *.
    destruct (IH s1 Hs') as [Hxs Hs''].
    destruct (for_each body xs s1) as [ys s2]; simpl in *.
    split; [constructor; assumption | exact Hs''].
Qed.

(** The same without a condition on the source. *)
Lemma for_each_rel {A B} (R : A -> B -> Prop) (body : A -> Rand B) :
  (forall x s, R x (fst (body x s))) ->
  forall xs s, Forall2 R xs (fst (for_each body xs s)).
Proof.
  intros Hbody xs s.
  apply (for_each_Forall2 (fun _ => True) R body); [| exact I].
  intros x s' _. split; [apply Hbody | exact I].
Qed.

Lemma for_each_length {A B} (body : A -> Rand B) (xs : list A) (s : Source) :
  List.length (fst (for_each body xs s)) = List.length xs.
Proof.
  symmetry. eapply Forall2_length.
  apply (for_each_rel (fun _ _ => True)). intros; exact I.
Qed.

Lemma randint_between_tail (a b : Z) (s : Source) :
  randint_between a b s ->
  randint_between a b
    (mkSource (uniform_draws s) (fun n => randint_draws s (S n))).
Proof. intros H n. simpl. apply H. Qed.

Lemma Forall2_compose {A B C} (R : A -> B -> Prop) (S : B -> C -> Prop)
    (T : A -> C -> Prop) :
  (forall a b c, R a b -> S b c -> T a c) ->
  forall xs ys zs, Forall2 R xs ys -> Forall2 S ys zs -> Forall2 T xs zs.
Proof.
  intros H xs ys zs Hxy. revert zs.
  induction Hxy; intros zs Hyz; inversion Hyz; subst; constructor; eauto.
Qed.

Lemma Forall2_refl {A} (R : A -> A -> Prop) :
  (forall a, R a a) -> forall xs, Forall2 R xs xs.
Proof. intros H xs. induction xs; constructor; auto. Qed.

End RandomFacts.

(* ================================================================= *)
(** ** The simulation tick *)

Module TickFacts.

Import PyNum PyNumFacts Random RandomFacts Inv.

Lemma update_cell_ticked (item : string * Cell.cell) (s : Source) :
  ticked item (fst (App.update_cell item s)).
Proof.
  destruct item as [k c]. unfold App.update_cell, bind, uniform, ret; simpl.
  split; [reflexivity | do 3 eexists; reflexivity].
Qed.

(** The tick of a non-empty registry, field by field. *)
Lemma tick_nonempty (now : datetime) (st : SessionState) (s : Source) :
  Dict.truthy (cells_data st) = true ->
  let st' := fst (App.simulate_real_time_data now st s) in
  Forall2 ticked (cells_data st) (cells_data st')
  /\ historical_data st' =
     (historical_data st
      ++ map (App.sample_of (now + timedelta_seconds (current_time st)))
           (cells_data st'))%list
  /\ current_time st' = current_time st + 1
  /\ tasks_data st' = tasks_data st
  /\ simulation_running st' = simulation_running st.
Proof.
  intros Hne. unfold App.simulate_real_time_data. rewrite Hne.
  unfold bind, ret.
  pose proof (for_each_rel ticked App.update_cell update_cell_ticked
                (cells_data st) s) as H.
  destruct (for_each App.update_cell (cells_data st) s) as [cells s'].
  simpl in *. repeat split; try reflexivity. exact H.
Qed.

(** The tick of an empty registry changes nothing. *)
Lemma tick_empty (now : datetime) (st : SessionState) (s : Source) :
  Dict.truthy (cells_data st) = false ->
  App.simulate_real_time_data now st s = (st, s).
Proof.
  intros He. unfold App.simulate_real_time_data. rewrite He. reflexivity.
Qed.

(** The samples taken of a ticked registry carry its keys, in order. *)
Lemma ticked_sample_keys (ts : datetime) (cells cells' : Dict.dict Cell.cell) :
  Forall2 ticked cells cells' ->
  map Sample.cell_id (map (App.sample_of ts) cells') = Dict.keys cells.
Proof.
  unfold Dict.keys.
  induction 1 as [| [k c] [k' c'] l l' [Hk _] _ IH]; simpl; [reflexivity |].
  simpl in Hk. rewrite Hk, IH. reflexivity.
Qed.

(** In either case the cells are related by [ticked] or untouched. *)
Lemma tick_cells (now : datetime) (st : SessionState) (s : Source) :
  let st' := fst (App.simulate_real_time_data now st s) in
  (Dict.truthy (cells_data st) = true
   /\ Forall2 ticked (cells_data st) (cells_data st'))
  \/ (cells_data st = [] /\ st' = st).
Proof.
  destruct (Dict.truthy (cells_data st)) eqn:E.
  - left. split; [reflexivity |]. apply tick_nonempty. exact E.
  - right. rewrite tick_empty by exact E. split; [| reflexivity].
    destruct (cells_data st); [reflexivity | discriminate].
Qed.

End TickFacts.

(* ================================================================= *)
(** ** Capacity, ranges, history and the tick counter *)

Module RegistryFacts.

Import PyNum PyNumFacts Random RandomFacts Inv TickFacts.

Local Open Scope Q_scope.

(** Rounding to [d] decimals keeps a value above a bound that has at most
    [d] decimals itself. *)
Lemma py_round_above (lo x : Q) (d : nat) :
  py_round lo d == lo -> lo <= x -> lo <= py_round x d.
Proof.
  intros Hfix Hle. rewrite py_round_eq in Hfix.
  rewrite <- Hfix. apply py_round_ge. rewrite Hfix. exact Hle.
Qed.

Lemma py_round_below (hi x : Q) (d : nat) :
  py_round hi d == hi -> x <= hi -> py_round x d <= hi.
Proof.
  intros Hfix Hle. rewrite py_round_eq in Hfix.
  rewrite <- Hfix. apply py_round_le. rewrite Hfix. exact Hle.
Qed.

Lemma store_cell_in_range (c : Cell.cell) (dv dt dc : Q) :
  bounds_ok c -> in_range (App.store_cell c dv dt dc).
Proof.
  intros (Hle & Hlo & Hhi). unfold in_range, App.store_cell; simpl.
  destruct (clamp_between _ _ (Cell.voltage c + dv) Hle) as [Hv1 Hv2].
  assert (H2050 : 20 <= 50) by lra.
  destruct (clamp_between _ _ (Cell.temp c + dt) H2050) as [Ht1 Ht2].
  repeat split.
  - apply py_round_above; assumption.
  - apply py_round_below; assumption.
  - apply py_round_above; [reflexivity | exact Ht1].
  - apply py_round_below; [reflexivity | exact Ht2].
  - apply py_round_above; [reflexivity | apply py_max_l].
Qed.

Lemma store_cell_bounds_ok (c : Cell.cell) (dv dt dc : Q) :
  bounds_ok c -> bounds_ok (App.store_cell c dv dt dc).
Proof. intros H. exact H. Qed.

Lemma ticked_registry (cells cells' : Dict.dict Cell.cell) :
  Forall2 ticked cells cells' ->
  Forall bounds_ok (Dict.values cells) ->
  Forall in_range (Dict.values cells')
  /\ Forall bounds_ok (Dict.values cells').
Proof.
  unfold Dict.values.
  induction 1 as [| [k c] [k' c'] cells cells' Hcc _ IH]; simpl; intros Hb.
  - split; constructor.
  - inversion Hb as [| ? ? Hc Hrest]; subst.
    destruct (IH Hrest) as [IH1 IH2].
    destruct Hcc as (_ & dv & dt & dc & Heq); simpl in Heq; subst c'.
    split; constructor; auto using store_cell_in_range, store_cell_bounds_ok.
Qed.

(** After one tick every cell is in range, and the bounds stay as they
    are. *)
Lemma tick_in_range (now : datetime) (st : SessionState) (s : Source) :
  registry_bounds_ok st ->
  (registry_in_range st \/ Dict.truthy (cells_data st) = true) ->
  registry_in_range (fst (App.simulate_real_time_data now st s))
  /\ registry_bounds_ok (fst (App.simulate_real_time_data now st s)).
Proof.
  intros Hb Hr. unfold registry_in_range, registry_bounds_ok in *.
  destruct (tick_cells now st s) as [[_ H] | [He Hst]].
  - exact (ticked_registry _ _ H Hb).
  - rewrite Hst. split; [| exact Hb]. rewrite He. constructor.
Qed.

Lemma run_ticks_keeps_range (nows : list datetime) :
  forall (st : SessionState) (s : Source),
    registry_bounds_ok st ->
    (registry_in_range st \/ nows <> []) ->
    registry_in_range (fst (App.run_ticks nows st s)).
Proof.
  induction nows as [| now nows IH]; intros st s Hb Hr; simpl.
  - destruct Hr as [Hr | Hn]; [exact Hr | congruence].
  - unfold bind.
    assert (Hone : registry_in_range st \/ Dict.truthy (cells_data st) = true).
    { destruct Hr as [Hr | _]; [left; exact Hr |].
      destruct (cells_data st) eqn:E; [left | right; reflexivity].
      unfold registry_in_range. rewrite E. constructor. }
    destruct (tick_in_range now st s Hb Hone) as [H1 H2].
    destruct (App.simulate_real_time_data now st s) as [st1 s1]; simpl in *.
    apply IH; [exact H2 | left; exact H1].
Qed.

Local Close Scope Q_scope.

(** C1 fails as stated: the LFP cell created with current 1.0 A is ticked
    with the changes +0.004 V and +0.004 A; it stores voltage 3.2, current
    1.0 and capacity 3.22, while 3.2 * 1.0 rounds to 3.2. *)
Lemma tick_capacity_not_of_stored_values :
  exists c,
    Dict.get "cell_1_lfp" (cells_data (Examples.one_cell_ticked 0)) = Some c
    /\ (Cell.voltage c == 3.2)%Q /\ (Cell.current c == 1.0)%Q
    /\ (Cell.capacity c == 3.22)%Q
    /\ ~ (Cell.capacity c == py_round (Cell.voltage c * Cell.current c) 2)%Q.
Proof.
  eexists. split; [vm_compute; reflexivity |].
  repeat split; try (vm_compute; reflexivity).
  vm_compute. discriminate.
Qed.

(** C2: whatever the number of ticks (at least one), the clock readings and
    the draws, after the ticks every cell has its voltage within its own
    bounds, its temperature within [[20, 50]] and a non-negative current.
    The registry is any one whose cells carry bounds with at most two
    decimals, lower bound first; the registries of the application are
    such, see [reachable_bounds_ok]. *)
Theorem run_ticks_in_range
    (nows : list datetime) (st : SessionState) (s : Source) :
  registry_bounds_ok st ->
  nows <> [] ->
  registry_in_range (fst (App.run_ticks nows st s)).
Proof.
  intros Hb Hn. apply run_ticks_keeps_range; [exact Hb | right; exact Hn].
Qed.

Lemma run_ticks_in_range_witness :
  registry_in_range
    (fst (App.run_ticks [0; 1000000; 2000000] Examples.one_cell
            (snd Examples.one_cell_created))).
Proof.
  apply run_ticks_in_range.
  - unfold registry_bounds_ok. vm_compute. repeat constructor; discriminate.
  - discriminate.
Defined.

(** C4, as the code has it: the tick of a non-empty registry appends one
    sample per cell, in registry order, holding the cell's new readings;
    each of them is stamped with the clock reading taken during this tick
    plus as many seconds as the tick counter shows. *)
Theorem tick_appends_samples_at_clock_reading
    (now : datetime) (st : SessionState) (s : Source) :
  Dict.truthy (cells_data st) = true ->
  let st' := fst (App.simulate_real_time_data now st s) in
  exists appended,
    historical_data st' = (historical_data st ++ appended)%list
    /\ List.length appended = Dict.len (cells_data st)
    /\ map Sample.cell_id appended = Dict.keys (cells_data st)
    /\ appended =
       map (App.sample_of (now + timedelta_seconds (current_time st)))
         (cells_data st')
    /\ Forall
         (fun smp =>
            Sample.timestamp smp =
            (now + timedelta_seconds (current_time st))%Z)
         appended.
Proof.
  intros Hne st'.
  destruct (tick_nonempty now st s Hne) as (Hcells & Hhist & _).
  fold st' in Hcells, Hhist.
  exists (map (App.sample_of (now + timedelta_seconds (current_time st)))
            (cells_data st')).
  split; [exact Hhist |].
  split; [rewrite length_map; symmetry; exact (Forall2_length Hcells) |].
  split; [| split; [reflexivity |]].
  - apply ticked_sample_keys. exact Hcells.
  - apply Forall_forall. intros smp Hin. apply in_map_iff in Hin.
    destruct Hin as ([k c] & <- & _). reflexivity.
Qed.

Lemma tick_appends_samples_at_clock_reading_witness :
  exists appended,
    historical_data (Examples.one_cell_ticked 5000000) =
    (historical_data Examples.one_cell ++ appended)%list
    /\ List.length appended = Dict.len (cells_data Examples.one_cell)
    /\ map Sample.cell_id appended = Dict.keys (cells_data Examples.one_cell)
    /\ appended =
       map (App.sample_of
              (5000000 + timedelta_seconds (current_time Examples.one_cell)))
         (cells_data (Examples.one_cell_ticked 5000000))
    /\ Forall
         (fun smp =>
            Sample.timestamp smp =
            5000000 + timedelta_seconds (current_time Examples.one_cell))
         appended.
Proof.
  apply (tick_appends_samples_at_clock_reading 5000000 Examples.one_cell
           (snd Examples.one_cell_created)).
  reflexivity.
Defined.

(** C4 fails as stated: a session starts at clock reading 0 and creates a
    cell; its first tick (counter 0) is read 5 seconds later and stamps
    its sample with 5 s, not with 0 s + 0 * 1 s; the same tick read at 9 s
    would have stamped 9 s. *)
Lemma tick_timestamp_not_from_session_start :
  let session_start := 0%Z in
  current_time Examples.one_cell = 0%Z
  /\ map Sample.timestamp
       (historical_data (Examples.one_cell_ticked (session_start + 5000000)))
     = [5000000%Z]
  /\ map Sample.timestamp
       (historical_data (Examples.one_cell_ticked (session_start + 9000000)))
     = [9000000%Z]
  /\ exists smp,
       In smp
         (historical_data
            (Examples.one_cell_ticked (session_start + 5000000)))
       /\ Sample.timestamp smp <>
          (session_start
           + timedelta_seconds (current_time Examples.one_cell))%Z.
Proof.
  simpl. repeat split; try (vm_compute; reflexivity).
  eexists. split; [vm_compute; left; reflexivity |].
  vm_compute. discriminate.
Qed.

(** C5, as the code has it: a tick of a non-empty registry adds exactly 1
    to the tick counter whatever the number of cells, and a tick of an
    empty registry leaves the whole session, counter included, as it
    was. *)
Theorem tick_counter_guarded
    (now : datetime) (st : SessionState) (s : Source) :
  let st' := fst (App.simulate_real_time_data now st s) in
  match cells_data st with
  | [] => st' = st
  | _ :: _ => current_time st' = current_time st + 1
  end.
Proof.
  simpl. destruct (cells_data st) eqn:E.
  - rewrite tick_empty; [reflexivity |]. rewrite E. reflexivity.
  - destruct (tick_nonempty now st s) as (_ & _ & Hc & _); [| exact Hc].
    rewrite E. reflexivity.
Qed.

(** C5 fails as stated: a tick of the fresh session, whose registry is
    empty, leaves the tick counter at 0. *)
Lemma tick_empty_registry_keeps_counter :
  let st := App.initialize_session_state in
  let st' :=
    fst (App.simulate_real_time_data 0 st (Examples.source_of [] 1)) in
  cells_data st = []
  /\ current_time st' = 0%Z
  /\ current_time st' <> (current_time st + 1)%Z.
Proof.
  simpl. repeat split; try reflexivity. vm_compute. discriminate.
Qed.

End RegistryFacts.

(* ================================================================= *)
(** ** Dictionaries and keys *)

Module DictFacts.

Section WithValue.
Context {V : Type}.
Implicit Types (d : Dict.dict V) (k : string) (v : V).

Lemma get_set_same k v d : Dict.get k (Dict.set k v d) = Some v.
Proof.
  induction d as [| [k' v'] d IH]; simpl.
  - rewrite String.eqb_refl. reflexivity.
  - destruct (String.eqb k k') eqn:E; simpl; rewrite E;
      [reflexivity | exact IH].
Qed.

Lemma get_set_other k k' v d :
  k <> k' -> Dict.get k (Dict.set k' v d) = Dict.get k d.
Proof.
  intros Hne. induction d as [| [k0 v0] d IH]; simpl.
  - apply String.eqb_neq in Hne. rewrite Hne. reflexivity.
  - destruct (String.eqb k' k0) eqn:E; simpl.
    + apply String.eqb_eq in E. subst k0.
      apply String.eqb_neq in Hne. rewrite Hne. reflexivity.
    + rewrite IH. reflexivity.
Qed.

(** A store under an absent key appends; under a present key it keeps
    the length. *)
Lemma len_set k v d :
  Dict.len (Dict.set k v d) =
  match Dict.get k d with
  | Some _ => Dict.len d
  | None => S (Dict.len d)
  end.
Proof.
  unfold Dict.len. induction d as [| [k' v'] d IH]; simpl; [reflexivity |].
  destruct (String.eqb k k'); simpl; [reflexivity |].
  rewrite IH. destruct (Dict.get k d); reflexivity.
Qed.

Lemma set_absent k v d :
  Dict.get k d = None -> Dict.set k v d = (d ++ [(k, v)])%list.
Proof.
  induction d as [| [k' v'] d IH]; simpl; [reflexivity |].
  destruct (String.eqb k k'); [discriminate |].
  intros H. rewrite IH by exact H. reflexivity.
Qed.

Lemma set_nonempty k v d : Dict.set k v d <> [].
Proof.
  destruct d as [| [k' v'] d]; simpl; [discriminate |].
  destruct (String.eqb k k'); discriminate.
Qed.

Lemma Forall_values_set (P : V -> Prop) k v d :
  P v -> Forall P (Dict.values d) -> Forall P (Dict.values (Dict.set k v d)).
Proof.
  intros Hv. unfold Dict.values.
  induction d as [| [k' v'] d IH]; simpl; intros Hd.
  - constructor; [exact Hv | constructor].
  - inversion Hd; subst.
    destruct (String.eqb k k'); simpl; constructor; auto.
Qed.

Lemma Forall_values_del (P : V -> Prop) k d :
  Forall P (Dict.values d) -> Forall P (Dict.values (Dict.del k d)).
Proof.
  unfold Dict.values.
  induction d as [| [k' v'] d IH]; simpl; intros Hd; [constructor |].
  inversion Hd; subst.
  destruct (String.eqb k k'); simpl; [assumption | constructor; auto].
Qed.

Lemma get_Forall_values (P : V -> Prop) k v d :
  Forall P (Dict.values d) -> Dict.get k d = Some v -> P v.
Proof.
  unfold Dict.values.
  induction d as [| [k' v'] d IH]; simpl; intros Hd Hg; [discriminate |].
  inversion Hd; subst.
  destruct (String.eqb k k'); [injection Hg as <-; assumption | auto].
Qed.

End WithValue.

Lemma append_inv_head (s a b : string) : s ++ a = s ++ b -> a = b.
Proof.
  induction s as [| c s IH]; simpl; intros H; [exact H |].
  injection H as H. auto.
Qed.

Lemma length_append (a b : string) :
  String.length (a ++ b) = (String.length a + String.length b)%nat.
Proof. induction a as [| c a IH]; simpl; [reflexivity | now rewrite IH]. Qed.

Lemma append_inv_tail (t : string) :
  forall a b : string, a ++ t = b ++ t -> a = b.
Proof.
  induction a as [| c a IH]; intros [| c' b] H; simpl in H.
  - reflexivity.
  - apply (f_equal String.length) in H. simpl in H.
    rewrite length_append in H. lia.
  - apply (f_equal String.length) in H. simpl in H.
    rewrite length_append in H. lia.
  - injection H as Hc H. subst c'. f_equal. apply IH. exact H.
Qed.

Lemma of_nat_inj (n m : nat) : Str.of_nat n = Str.of_nat m -> n = m.
Proof.
  unfold Str.of_nat. intros H.
  apply Unsigned.to_uint_inj.
  pose proof (NilEmpty.usu (Nat.to_uint n)) as Hn.
  pose proof (NilEmpty.usu (Nat.to_uint m)) as Hm.
  rewrite H in Hn. congruence.
Qed.

Lemma cell_key_inj (cell_type : string) (n m : nat) :
  App.cell_key cell_type n = App.cell_key cell_type m -> n = m.
Proof.
  unfold App.cell_key. intros H.
  apply append_inv_head in H. apply append_inv_tail in H.
  apply of_nat_inj. exact H.
Qed.

End DictFacts.

(* ================================================================= *)
(** ** Creating and clearing cells *)

Module CellFacts.

Import PyNum Random Inv DictFacts.

(** The fields [generate_cell_data] fixes for a chemistry, whatever it
    draws. *)
Lemma generate_cell_data_fields (ch : chemistry) (n : nat) (s : Source) :
  let c := fst (App.generate_cell_data (Str.lower (label ch)) n s) in
  Cell.cell_id c = App.cell_key (label ch) n
  /\ Cell.voltage c = nominal_voltage ch
  /\ Cell.min_voltage c = lower_bound ch
  /\ Cell.max_voltage c = upper_bound ch
  /\ Cell.capacity c = py_round (Cell.voltage c * Cell.current c) 2.
Proof. destruct ch; simpl; repeat split. Qed.

Lemma generate_cell_data_bounds_ok (ch : chemistry) (n : nat) (s : Source) :
  bounds_ok (fst (App.generate_cell_data (Str.lower (label ch)) n s)).
Proof.
  destruct ch; unfold bounds_ok; simpl; repeat split;
    solve [ vm_compute; discriminate | vm_compute; reflexivity ].
Qed.

Lemma for_fold_cons {A S} (body : S -> A -> Rand S) (acc : S) (x : A)
    (xs : list A) (s : Source) :
  for_fold body acc (x :: xs) s =
  for_fold body (fst (body acc x s)) xs (snd (body acc x s)).
Proof. simpl. unfold bind. destruct (body acc x s). reflexivity. Qed.

Lemma add_cell_eq (cell_type : string) (start_id i : nat)
    (cells : Dict.dict Cell.cell) (s : Source) :
  App.add_cell cell_type start_id cells i s =
  (Dict.set (App.cell_key cell_type (start_id + i))
     (fst (App.generate_cell_data (Str.lower cell_type) (start_id + i) s))
     cells,
   snd (App.generate_cell_data (Str.lower cell_type) (start_id + i) s)).
Proof. reflexivity. Qed.

(** The loop over the indices [a, a + n): every key of that range ends up
    holding the cell generated for it, every other key is untouched. *)
Lemma add_cells_range (ch : chemistry) (start_id n : nat) :
  forall (a : nat) (cells : Dict.dict Cell.cell) (s : Source),
    let cells' :=
      fst (for_fold (App.add_cell (label ch) start_id) cells (seq a n) s) in
    (forall i, (a <= i < a + n)%nat ->
       exists s0,
         Dict.get (App.cell_key (label ch) (start_id + i)) cells' =
         Some (fst (App.generate_cell_data (Str.lower (label ch))
                      (start_id + i) s0)))
    /\ (forall k,
          (forall i, (a <= i < a + n)%nat ->
             k <> App.cell_key (label ch) (start_id + i)) ->
          Dict.get k cells' = Dict.get k cells)
    /\ (Forall bounds_ok (Dict.values cells) ->
        Forall bounds_ok (Dict.values cells'))
    /\ (cells <> [] \/ (0 < n)%nat -> cells' <> []).
Proof.
  induction n as [| n IH]; intros a cells s; cbv zeta.
  - cbn [seq for_fold]. unfold ret. cbn [fst].
    repeat split; try tauto; try (intros; lia).
    intros [H | H]; [exact H | lia].
  - cbn [seq]. rewrite for_fold_cons, add_cell_eq.
    set (c := fst (App.generate_cell_data (Str.lower (label ch))
                     (start_id + a) s)).
    set (s1 := snd (App.generate_cell_data (Str.lower (label ch))
                      (start_id + a) s)).
    destruct (IH (S a)
                (Dict.set (App.cell_key (label ch) (start_id + a)) c cells)
                s1) as (IHget & IHother & IHb & IHne).
    repeat split.
    + intros i Hi. destruct (Nat.eq_dec i a) as [-> | Hia].
      * exists s. rewrite IHother.
        -- apply get_set_same.
        -- intros j Hj Heq. apply cell_key_inj in Heq. lia.
      * apply IHget. lia.
    + intros k Hk. rewrite IHother.
      * apply get_set_other. apply Hk. lia.
      * intros j Hj. apply Hk. lia.
    + intros Hb. apply IHb. apply Forall_values_set; [| exact Hb].
      apply generate_cell_data_bounds_ok.
    + intros _. apply IHne. left. apply set_nonempty.
Qed.

Lemma create_cells_fields (cell_type : string) (count : nat)
    (st : SessionState) (s : Source) :
  let st' := fst (App.create_cells cell_type count st s) in
  cells_data st' =
    fst (for_fold (App.add_cell cell_type (Dict.len (cells_data st) + 1))
           (cells_data st) (seq 0 count) s)
  /\ tasks_data st' = tasks_data st
  /\ simulation_running st' = simulation_running st
  /\ historical_data st' = historical_data st
  /\ current_time st' = current_time st.
Proof.
  unfold App.create_cells, App.add_cells_loop, bind, ret.
  destruct (for_fold _ _ _ s) as [cells s']. simpl. repeat split.
Qed.

(** C9: for either chemistry and any count, cell number [i] of a batch is
    stored under its key with the nominal voltage of the chemistry (3.2 V
    for LFP, 3.6 V for NMC), the bounds of the chemistry ([2.8, 3.6] for
    LFP, [3.2, 4.0] for NMC), and a capacity equal to its voltage times its
    current rounded to 2 decimals. *)
Theorem create_cells_nominal
    (ch : chemistry) (count i : nat) (st : SessionState) (s : Source) :
  (i < count)%nat ->
  let n := (Dict.len (cells_data st) + 1 + i)%nat in
  let st' := fst (App.create_cells (label ch) count st s) in
  exists c,
    Dict.get (App.cell_key (label ch) n) (cells_data st') = Some c
    /\ Cell.cell_id c = App.cell_key (label ch) n
    /\ (Cell.voltage c, Cell.min_voltage c, Cell.max_voltage c) =
       match ch with
       | LFP => (3.2, 2.8, 3.6)
       | NMC => (3.6, 3.2, 4.0)
       end%Q
    /\ Cell.capacity c = py_round (Cell.voltage c * Cell.current c) 2.
Proof.
  intros Hi n st'.
  destruct (create_cells_fields (label ch) count st s) as (Hcells & _).
  fold st' in Hcells. rewrite Hcells.
  destruct (add_cells_range ch (Dict.len (cells_data st) + 1) count 0
              (cells_data st) s) as (Hget & _).
  destruct (Hget i) as [s0 Hs0]; [lia |].
  eexists. split; [exact Hs0 |].
  destruct (generate_cell_data_fields ch n s0) as (Hid & Hv & Hlo & Hhi & Hc).
  fold n. split; [exact Hid |]. split; [| exact Hc].
  rewrite Hv, Hlo, Hhi. destruct ch; reflexivity.
Qed.

Lemma create_cells_nominal_witness :
  exists c,
    Dict.get (App.cell_key "NMC" 1) (cells_data
      (fst (App.create_cells "NMC" 2 App.initialize_session_state
              Examples.one_cell_source))) = Some c
    /\ Cell.cell_id c = App.cell_key "NMC" 1
    /\ (Cell.voltage c, Cell.min_voltage c, Cell.max_voltage c) =
       (3.6, 3.2, 4.0)%Q
    /\ Cell.capacity c = py_round (Cell.voltage c * Cell.current c) 2.
Proof.
  apply (create_cells_nominal NMC 2 0 App.initialize_session_state
           Examples.one_cell_source).
  simpl. lia.
Defined.

(** Every action leaves the tick counter alone or adds 1 to it, unless it
    is "Clear History". *)
Lemma step_counter (st st' : SessionState) :
  step st st' ->
  current_time st' = current_time st
  \/ current_time st' = current_time st + 1
  \/ st' = App.clear_history st.
Proof.
  intros H. destruct H as
    [ch count src st _ | now src st | st | st | b st | f st
    | task_id st st' H | task_id st st' H | src st _].
  - left. apply create_cells_fields.
  - pose proof (TickFacts.tick_cells now st src) as [[Ht _] | [_ ->]].
    + right; left. apply TickFacts.tick_nonempty. exact Ht.
    + left. reflexivity.
  - left. reflexivity.
  - right; right. reflexivity.
  - left. reflexivity.
  - left. reflexivity.
  - left. unfold App.start_task in H.
    destruct (Dict.get task_id (tasks_data st)); [| discriminate].
    injection H as <-. reflexivity.
  - left. unfold App.delete_task in H.
    destruct (Dict.get task_id (tasks_data st)); [| discriminate].
    injection H as <-. reflexivity.
  - left. unfold App.advance_progress.
    destruct (Dict.truthy (tasks_data st)); [| reflexivity].
    unfold bind, ret. destruct (for_each _ _ src). reflexivity.
Qed.

(** C10: "Clear All Cells" empties the registry and the history and keeps
    the tick counter; cells created afterwards are therefore stamped, at
    their first tick, with the counter value from before the clearing.
    "Clear History" empties the history, puts the counter back to 0 and
    keeps the registry; no other action lowers the counter. *)
Theorem clear_all_cells_keeps_counter
    (st : SessionState) (ch : chemistry) (count : nat) (now : datetime)
    (s s' : Source) :
  (1 <= count)%nat ->
  let cleared := App.clear_all_cells st in
  let created := fst (App.create_cells (label ch) count cleared s) in
  let after := fst (App.simulate_real_time_data now created s') in
  (cells_data cleared = [] /\ historical_data cleared = []
   /\ current_time cleared = current_time st)
  /\ (historical_data after <> []
      /\ Forall
           (fun smp =>
              Sample.timestamp smp =
              now + timedelta_seconds (current_time st))
           (historical_data after)
      /\ current_time after = current_time st + 1)
  /\ (historical_data (App.clear_history st) = []
      /\ current_time (App.clear_history st) = 0
      /\ cells_data (App.clear_history st) = cells_data st)
  /\ (forall st1 st2, step st1 st2 ->
        current_time st2 = current_time st1
        \/ current_time st2 = current_time st1 + 1
        \/ st2 = App.clear_history st1).
Proof.
  intros Hc cleared created after.
  split; [repeat split |]. split; [| split; [repeat split |]].
  2: exact step_counter.
  destruct (create_cells_fields (label ch) count cleared s)
    as (Hcells & _ & _ & Hhist & Htime).
  fold created in Hcells, Hhist, Htime.
  assert (Hne : cells_data created <> []).
  { rewrite Hcells.
    apply (add_cells_range ch (Dict.len (cells_data cleared) + 1) count 0).
    right. lia. }
  assert (Htruthy : Dict.truthy (cells_data created) = true).
  { destruct (cells_data created); [congruence | reflexivity]. }
  destruct (TickFacts.tick_nonempty now created s' Htruthy)
    as (H2 & Hh & Ht & _).
  fold after in H2, Hh, Ht.
  rewrite Hhist, Htime in Hh. rewrite Htime in Ht.
  change (historical_data cleared) with (@nil Sample.sample) in Hh.
  change (current_time cleared) with (current_time st) in Hh, Ht.
  simpl in Hh. rewrite Hh. repeat split.
  - apply Forall2_length in H2.
    destruct (cells_data after); [| discriminate].
    destruct (cells_data created); [congruence | discriminate].
  - apply Forall_forall. intros smp Hin. apply in_map_iff in Hin.
    destruct Hin as ([k c] & <- & _). reflexivity.
  - exact Ht.
Qed.

Lemma clear_all_cells_keeps_counter_witness :
  let st := Examples.one_cell_ticked 5000000 in
  let cleared := App.clear_all_cells st in
  let created :=
    fst (App.create_cells "LFP" 1 cleared Examples.one_cell_source) in
  let after :=
    fst (App.simulate_real_time_data 7000000 created
           Examples.one_cell_source) in
  current_time st = 1
  /\ current_time cleared = 1
  /\ Forall (fun smp => Sample.timestamp smp = 7000000 + 1000000)
       (historical_data after).
Proof.
  pose proof (clear_all_cells_keeps_counter
                (Examples.one_cell_ticked 5000000) LFP 1 7000000
                Examples.one_cell_source Examples.one_cell_source
                (le_n 1)) as H.
  cbv zeta in H. destruct H as ((_ & _ & Hc) & (_ & Hs & _) & _).
  split; [reflexivity |]. split; [exact Hc |]. exact Hs.
Defined.

End CellFacts.

(* ================================================================= *)
(** ** The task ledger *)

Module TaskFacts.

Import PyNum PyNumFacts Random RandomFacts Inv DictFacts.

Lemma advance_task_advanced (item : string * Task.task) (s : Source) :
  randint_between 1 5 s ->
  same_key advanced item (fst (App.advance_task item s))
  /\ randint_between 1 5 (snd (App.advance_task item s)).
Proof.
  intros Hs. destruct item as [k t]. unfold App.advance_task, same_key, advanced.
  destruct (Task.status t) eqn:E; simpl; rewrite ?E;
    try (split; [split; reflexivity | exact Hs]).
  split; [split; [reflexivity |] | apply randint_between_tail; exact Hs].
  exists (randint_draws s 0). rewrite py_min_int_spec.
  split; [apply Hs |]. split; [reflexivity |]. split; [| reflexivity].
  destruct (Z.leb_spec 100 (Z.min 100 (Task.progress t + randint_draws s 0)));
    destruct (Z.eqb_spec (Z.min 100 (Task.progress t + randint_draws s 0)) 100);
    try reflexivity; lia.
Qed.

(** One call of [advance_progress] on the whole session. *)
Lemma advance_progress_advanced (st : SessionState) (s : Source) :
  randint_between 1 5 s ->
  let st' := fst (App.advance_progress st s) in
  Forall2 (same_key advanced) (tasks_data st) (tasks_data st')
  /\ cells_data st' = cells_data st
  /\ historical_data st' = historical_data st
  /\ current_time st' = current_time st
  /\ simulation_running st' = simulation_running st
  /\ randint_between 1 5 (snd (App.advance_progress st s)).
Proof.
  intros Hs. unfold App.advance_progress.
  destruct (Dict.truthy (tasks_data st)) eqn:E.
  - unfold bind, ret.
    pose proof (for_each_Forall2 (randint_between 1 5) (same_key advanced)
                  App.advance_task advance_task_advanced (tasks_data st) s Hs)
      as [H1 H2].
    destruct (for_each App.advance_task (tasks_data st) s) as [tasks s'].
    simpl in *. split; [exact H1 |]. do 4 (split; [reflexivity |]). exact H2.
  - simpl. split; [| do 4 (split; [reflexivity |]); exact Hs].
    destruct (tasks_data st); [constructor | discriminate].
Qed.

Lemma advanced_evolves_1 (t t' : Task.task) :
  Task.progress t <= 100 -> advanced t t' -> evolves 1 t t'.
Proof.
  unfold advanced, evolves. intros Hp H.
  destruct (Task.status t) eqn:E.
  - subst t'. repeat split; try lia; try discriminate.
  - destruct H as (r & Hr & Hprog & Hst & Hform).
    repeat split; try assumption; try lia; try discriminate.
    + intros Hne. congruence.
    + intros _ _. exact Hst.
  - subst t'. repeat split; try lia; try discriminate.
Qed.

Lemma evolves_0 (t : Task.task) : Task.progress t <= 100 -> evolves 0 t t.
Proof.
  intros Hp. unfold evolves. repeat split; try lia; try reflexivity.
Qed.

(** One call followed by [n] calls. *)
Lemma evolves_S (n : nat) (t t1 t' : Task.task) :
  Task.progress t <= 100 ->
  advanced t t1 -> evolves n t1 t' -> evolves (S n) t t'.
Proof.
  intros Hp Ha (Hf & Hpr & H0 & Hnr & Hrun & Hlow).
  pose proof (advanced_evolves_1 t t1 Hp Ha)
    as (Hf1 & Hpr1 & _ & Hnr1 & Hrun1 & Hlow1).
  unfold evolves. split; [congruence |]. split; [lia |].
  split; [discriminate |].
  split; [intros Hs; rewrite (Hnr1 Hs) in *; apply Hnr; exact Hs |].
  assert (Hcase : Task.status t = Task.Running ->
                  (Task.progress t1 = 100 /\ t' = t1
                   /\ Task.status t1 = Task.Completed)
                  \/ (Task.progress t1 < 100
                      /\ Task.status t1 = Task.Running)).
  { intros Hs. specialize (Hrun1 Hs (le_n 1)).
    destruct (Z.eqb_spec (Task.progress t1) 100) as [He | Hne].
    - left. split; [exact He |]. split; [| exact Hrun1].
      apply Hnr. rewrite Hrun1. discriminate.
    - right. split; [lia | exact Hrun1]. }
  split.
  - intros Hs _. destruct (Hcase Hs) as [(He & -> & Hc) | (Hlt & Hr)].
    + rewrite Hc, He. reflexivity.
    + destruct n as [| n].
      * rewrite (H0 eq_refl), Hr.
        destruct (Z.eqb_spec (Task.progress t1) 100); [lia | reflexivity].
      * apply Hrun; [exact Hr | lia].
  - intros Hs. destruct (Hcase Hs) as [(He & -> & Hc) | (Hlt & Hr)].
    + lia.
    + specialize (Hlow Hr). specialize (Hlow1 Hs). lia.
Qed.

(** [n] calls of [advance_progress] on a ledger of percentages. *)
Lemma advance_progress_n_evolves (n : nat) :
  forall (st : SessionState) (s : Source),
    randint_between 1 5 s ->
    Forall (fun t => Task.progress t <= 100) (Dict.values (tasks_data st)) ->
    Forall2 (same_key (evolves n)) (tasks_data st)
      (tasks_data (fst (App.advance_progress_n n st s))).
Proof.
  induction n as [| n IH]; intros st s Hs Hok; simpl.
  - revert Hok. unfold Dict.values.
    induction (tasks_data st) as [| [k t] l IHl]; simpl; intros Hok;
      constructor; inversion Hok; subst; auto.
    split; [reflexivity | apply evolves_0; assumption].
  - unfold bind.
    destruct (advance_progress_advanced st s Hs) as (H1 & _ & _ & _ & _ & Hs1).
    destruct (App.advance_progress st s) as [st1 s1]; simpl in *.
    assert (Hok1 : Forall (fun t => Task.progress t <= 100)
                     (Dict.values (tasks_data st1))).
    { clear IH. revert Hok. unfold Dict.values.
      induction H1 as [| [k t] [k1 t1] l l1 [_ Ha] _ IHl]; simpl; intros Hok;
        constructor; inversion Hok; subst; auto.
      simpl in Ha. apply advanced_evolves_1 in Ha; [| assumption].
      destruct Ha as (_ & Hpr & _). lia. }
    specialize (IH st1 s1 Hs1 Hok1).
    clear Hok1. revert Hok IH. generalize (tasks_data
      (fst (App.advance_progress_n n st1 s1))). unfold Dict.values.
    induction H1 as [| [k t] [k1 t1] l l1 [Hk Ha] _ IHl]; simpl;
      intros l' Hok IH'; inversion IH' as [| ? [k' t'] ? l2 [Hk' He] Hrest];
      subst; constructor.
    + inversion Hok; subst. simpl in *. split; [simpl; congruence |].
      simpl. eapply evolves_S; eassumption.
    + inversion Hok; subst. apply IHl; assumption.
Qed.

Lemma randint_between_constant (us : list Q) (k : Z) :
  1 <= k <= 5 -> randint_between 1 5 (Examples.source_of us k).
Proof. intros H n. simpl. exact H. Qed.

(** C7: one call of [advance_progress] keeps the keys and their order;
    each Running task gets the progress [min(100, progress + r)] for a
    draw [r] of [{1, ..., 5}] and becomes Completed exactly when that new
    progress is 100 (it stays Running otherwise); every other task, and
    the rest of the session, is unchanged. *)
Theorem advance_progress_spec (st : SessionState) (s : Source) :
  randint_between 1 5 s ->
  let st' := fst (App.advance_progress st s) in
  Forall2
    (fun item item' =>
       fst item' = fst item /\
       let t := snd item in
       match Task.status t with
       | Task.Running =>
           exists r, 1 <= r <= 5 /\
             let progress := Z.min 100 (Task.progress t + r) in
             snd item' =
             Task.mkTask (Task.form t)
               (if progress =? 100 then Task.Completed else Task.Running)
               progress
       | _ => snd item' = t
       end)
    (tasks_data st) (tasks_data st')
  /\ cells_data st' = cells_data st
  /\ historical_data st' = historical_data st
  /\ current_time st' = current_time st.
Proof.
  intros Hs st'.
  destruct (advance_progress_advanced st s Hs) as (H & Hc & Hh & Ht & _).
  fold st' in H, Hc, Hh, Ht. repeat split; try assumption.
  eapply Forall2_impl; [| exact H].
  intros [k t] [k' t'] [Hk Ha]. simpl in *. split; [exact Hk |].
  unfold advanced in Ha. destruct (Task.status t); try exact Ha.
  destruct Ha as (r & Hr & Hp & Hst & Hf). exists r. split; [exact Hr |].
  destruct t' as [f' s' p']. simpl in *. subst. reflexivity.
Qed.

Lemma advance_progress_spec_witness :
  let st' :=
    fst (App.advance_progress Examples.idle_started
           (Examples.source_of [] 3)) in
  tasks_data st' = [("task_1", Task.mkTask (Task.IDLE 1800) Task.Running 3)]
  /\ Forall2
       (fun item item' =>
          fst item' = fst item /\
          let t := snd item in
          match Task.status t with
          | Task.Running =>
              exists r, 1 <= r <= 5 /\
                let progress := Z.min 100 (Task.progress t + r) in
                snd item' =
                Task.mkTask (Task.form t)
                  (if progress =? 100 then Task.Completed else Task.Running)
                  progress
          | _ => snd item' = t
          end)
       (tasks_data Examples.idle_started) (tasks_data st').
Proof.
  split; [reflexivity |].
  apply (advance_progress_spec Examples.idle_started
           (Examples.source_of [] 3)).
  intros n. simpl. lia.
Defined.

(** C8 fails as stated: the IDLE task is Completed at progress 100 after 20
    calls that each draw 5; pressing its "Start" button then makes it
    Running again. *)
Lemma start_task_reverts_completed :
  tasks_data Examples.idle_completed =
    [("task_1", Task.mkTask (Task.IDLE 1800) Task.Completed 100)]
  /\ App.start_task "task_1" Examples.idle_completed =
     Some Examples.idle_restarted
  /\ tasks_data Examples.idle_restarted =
     [("task_1", Task.mkTask (Task.IDLE 1800) Task.Running 100)]
  /\ exists t,
       Dict.get "task_1" (tasks_data Examples.idle_restarted) = Some t
       /\ Task.progress t = 100 /\ Task.status t <> Task.Completed.
Proof.
  repeat split; try (vm_compute; reflexivity).
  eexists. split; [vm_compute; reflexivity |].
  split; [reflexivity | discriminate].
Qed.

(** The started IDLE task after [n] calls: still the only task, with a
    progress of at least [min(100, n)]. *)
Lemma idle_task_progress_bounds (n : nat) (s : Source) :
  randint_between 1 5 s ->
  exists t,
    tasks_data (fst (App.advance_progress_n n Examples.idle_started s)) =
      [("task_1", t)]
    /\ Task.form t = Task.IDLE 1800
    /\ Z.min 100 (Z.of_nat n) <= Task.progress t <= 100
    /\ ((1 <= n)%nat ->
        Task.status t =
        if Task.progress t =? 100 then Task.Completed else Task.Running).
Proof.
  intros Hs.
  assert (Hok : Forall (fun t => Task.progress t <= 100)
                  (Dict.values (tasks_data Examples.idle_started))).
  { vm_compute. repeat constructor; discriminate. }
  pose proof (advance_progress_n_evolves n Examples.idle_started s Hs Hok)
    as H.
  change (tasks_data Examples.idle_started)
    with [("task_1", Task.mkTask (Task.IDLE 1800) Task.Running 0)] in H.
  inversion H as [| ? [k t] ? l [Hk He] Hl]; subst.
  inversion Hl; subst. simpl in Hk, He. subst k.
  destruct He as (Hf & Hp & _ & _ & Hrun & Hlow). simpl in *.
  specialize (Hlow eq_refl).
  exists t. split; [reflexivity |]. split; [exact Hf |]. split; [lia |].
  intros Hn. exact (Hrun eq_refl Hn).
Qed.

(** C3, as the code has it: one IDLE task of 1800 seconds is added and
    started (Running, progress 0); after 100 calls of [advance_progress]
    or more, whatever the draws of [{1, ..., 5}], its progress is 100 and
    its status Completed. *)
Theorem idle_task_completes_after_100_calls (n : nat) (s : Source) :
  randint_between 1 5 s ->
  (100 <= n)%nat ->
  tasks_data Examples.idle_started =
    [("task_1", Task.mkTask (Task.IDLE 1800) Task.Running 0)]
  /\ tasks_data (fst (App.advance_progress_n n Examples.idle_started s)) =
     [("task_1", Task.mkTask (Task.IDLE 1800) Task.Completed 100)].
Proof.
  intros Hs Hn. split; [reflexivity |].
  destruct (idle_task_progress_bounds n s Hs) as (t & Ht & Hf & Hp & Hst).
  rewrite Ht. do 2 f_equal.
  assert (Hp100 : Task.progress t = 100) by lia.
  specialize (Hst ltac:(lia)). rewrite Hp100 in Hst. simpl in Hst.
  destruct t as [f st p]. simpl in *. subst. reflexivity.
Qed.

Lemma idle_task_completes_after_100_calls_witness :
  tasks_data
    (fst (App.advance_progress_n 100 Examples.idle_started
            (Examples.source_of [] 1))) =
  [("task_1", Task.mkTask (Task.IDLE 1800) Task.Completed 100)].
Proof.
  apply (idle_task_completes_after_100_calls 100 (Examples.source_of [] 1)).
  - intros n. simpl. lia.
  - lia.
Defined.

(** C3 fails as stated: when each of the 30 calls draws 1, the task is
    still Running, at progress 30. *)
Lemma thirty_calls_leave_idle_task_running :
  randint_between 1 5 (Examples.source_of [] 1)
  /\ tasks_data
       (fst (App.advance_progress_n 30 Examples.idle_started
               (Examples.source_of [] 1))) =
     [("task_1", Task.mkTask (Task.IDLE 1800) Task.Running 30)].
Proof.
  split; [intros n; simpl; lia | vm_compute; reflexivity].
Qed.

(** What "Add Task" stores, and how the size of the ledger changes: it
    grows by 1 only when the computed id is not in use. *)
Lemma add_task_stores (f : Task.task_form) (st : SessionState) :
  let task_id := App.next_task_id (tasks_data st) in
  let st' := App.add_task f st in
  Dict.get task_id (tasks_data st') = Some (Task.mkTask f Task.Pending 0)
  /\ Dict.len (tasks_data st') =
     match Dict.get task_id (tasks_data st) with
     | Some _ => Dict.len (tasks_data st)
     | None => S (Dict.len (tasks_data st))
     end.
Proof.
  simpl. split; [apply get_set_same | apply len_set].
Qed.

(** C6 on a ledger that has seen a deletion: with "task_1" and "task_2"
    added and "task_1" deleted, the size is 1, so the next task is stored
    under "task_2" again: it replaces the task that was there and the size
    stays 1. *)
Theorem add_task_after_delete_overwrites :
  let st := Examples.first_deleted in
  let st' := App.add_task (Task.IDLE 30) st in
  tasks_data st = [("task_2", Task.mkTask (Task.IDLE 20) Task.Pending 0)]
  /\ App.next_task_id (tasks_data st) = "task_2"
  /\ tasks_data st' =
     [("task_2", Task.mkTask (Task.IDLE 30) Task.Pending 0)]
  /\ Dict.len (tasks_data st') = Dict.len (tasks_data st).
Proof.
  simpl. repeat split; vm_compute; reflexivity.
Qed.

End TaskFacts.

(* ================================================================= *)
(** ** Invariants of the reachable sessions *)

Module ReachFacts.

Import Random RandomFacts Inv DictFacts.

Lemma advanced_progress_ok (t t' : Task.task) :
  progress_ok t -> advanced t t' -> progress_ok t'.
Proof.
  unfold progress_ok, advanced. intros Hp H.
  destruct (Task.status t); try (subst t'; exact Hp).
  destruct H as (r & Hr & Hprog & _). lia.
Qed.

Lemma step_invariant (st st' : SessionState) :
  step st st' ->
  registry_bounds_ok st /\ ledger_ok st ->
  registry_bounds_ok st' /\ ledger_ok st'.
Proof.
  unfold registry_bounds_ok, ledger_ok.
  intros H [Hb Hl]. destruct H as
    [ch count src st _ | now src st | st | st | b st | f st
    | task_id st st' H | task_id st st' H | src st Hs].
  - destruct (CellFacts.create_cells_fields (label ch) count st src)
      as (Hc & Ht & _).
    rewrite Hc, Ht. split; [| exact Hl].
    apply (CellFacts.add_cells_range ch (Dict.len (cells_data st) + 1)
             count 0). exact Hb.
  - destruct (TickFacts.tick_cells now st src) as [[Ht H2] | [_ ->]];
      [| split; assumption].
    split.
    + apply (RegistryFacts.ticked_registry _ _ H2 Hb).
    + destruct (TickFacts.tick_nonempty now st src Ht) as (_ & _ & _ & -> & _).
      exact Hl.
  - split; [constructor | exact Hl].
  - split; assumption.
  - split; assumption.
  - split; [exact Hb |]. simpl. apply Forall_values_set; [| exact Hl].
    unfold progress_ok. simpl. lia.
  - unfold App.start_task in H.
    destruct (Dict.get task_id (tasks_data st)) as [t |] eqn:E;
      [| discriminate].
    injection H as <-. simpl. split; [exact Hb |].
    apply Forall_values_set; [| exact Hl].
    exact (get_Forall_values progress_ok _ _ _ Hl E).
  - unfold App.delete_task in H.
    destruct (Dict.get task_id (tasks_data st)); [| discriminate].
    injection H as <-. simpl. split; [exact Hb |].
    apply Forall_values_del. exact Hl.
  - destruct (TaskFacts.advance_progress_advanced st src Hs)
      as (H2 & -> & _).
    split; [exact Hb |].
    revert Hl. unfold Dict.values.
    induction H2 as [| [k t] [k' t'] l l' [_ Ha] _ IH]; simpl; intros Hl;
      constructor; inversion Hl; subst; auto.
    eapply advanced_progress_ok; eassumption.
Qed.

(** Every session the application reaches has cells with well-formed
    bounds and tasks whose progress is a percentage. *)
Lemma reachable_invariant (st : SessionState) :
  reachable st -> registry_bounds_ok st /\ ledger_ok st.
Proof.
  induction 1 as [| st st' _ IH Hstep].
  - split; constructor.
  - exact (step_invariant st st' Hstep IH).
Qed.

Lemma reachable_bounds_ok (st : SessionState) :
  reachable st -> registry_bounds_ok st.
Proof. intros H. apply reachable_invariant. exact H. Qed.

Lemma reachable_ledger_ok (st : SessionState) :
  reachable st -> ledger_ok st.
Proof. intros H. apply reachable_invariant. exact H. Qed.

End ReachFacts.

(* ================================================================= *)
(** ** Keys of the registry *)

Module KeyFacts.

Import Random Inv Shape DictFacts.

Lemma string_of_uint_no_underscore (d : Decimal.uint) :
  no_underscore (NilEmpty.string_of_uint d) = true.
Proof. induction d; simpl; auto. Qed.

Lemma of_nat_no_underscore (n : nat) : no_underscore (Str.of_nat n) = true.
Proof. apply string_of_uint_no_underscore. Qed.

(** Two strings without ['_'] that are followed by ['_'] and agree as a
    whole are equal. *)
Lemma underscore_splits (a : string) :
  forall b x y : string,
    no_underscore a = true -> no_underscore b = true ->
    a ++ String "_" x = b ++ String "_" y -> a = b.
Proof.
  induction a as [| c a IH]; intros [| c' b] x y Ha Hb H; simpl in *.
  - reflexivity.
  - injection H as Hc _. subst c'. simpl in Hb. discriminate.
  - injection H as Hc _. subst c. simpl in Ha. discriminate.
  - injection H as Hc H. subst c'.
    apply andb_prop in Ha. apply andb_prop in Hb.
    f_equal. apply (IH b x y); tauto.
Qed.

(** The number in a cell key is determined by the key, whatever the
    types. *)
Lemma cell_key_number (t1 t2 : string) (n m : nat) :
  App.cell_key t1 n = App.cell_key t2 m -> n = m.
Proof.
  unfold App.cell_key. intros H. apply append_inv_head in H.
  apply of_nat_inj.
  apply (underscore_splits _ _ _ _ (of_nat_no_underscore n)
           (of_nat_no_underscore m) H).
Qed.

Lemma task_key_inj (n m : nat) : task_key n = task_key m -> n = m.
Proof.
  unfold task_key. intros H. apply append_inv_head in H.
  apply of_nat_inj. exact H.
Qed.

Lemma get_None_keys {V} (k : string) (d : Dict.dict V) :
  Dict.get k d = None <-> ~ In k (Dict.keys d).
Proof.
  unfold Dict.keys. induction d as [| [k' v] d IH]; simpl.
  - tauto.
  - destruct (String.eqb_spec k k') as [-> | Hne].
    + split; [discriminate | intros H; exfalso; apply H; left; reflexivity].
    + rewrite IH. split; [intros H [Hk | Hin]; [congruence | tauto] | tauto].
Qed.

Lemma get_Some_keys {V} (k : string) (v : V) (d : Dict.dict V) :
  Dict.get k d = Some v -> In k (Dict.keys d).
Proof.
  intros H. destruct (in_dec string_dec k (Dict.keys d)) as [Hin | Hn];
    [exact Hin |].
  apply get_None_keys in Hn. congruence.
Qed.

(** The keys of a registry numbered from [a] carry the numbers
    [a, a + len). *)
Lemma keyed_from_keys (cells : Dict.dict Cell.cell) :
  forall a k, keyed_from a cells -> In k (Dict.keys cells) ->
    exists ch n, k = App.cell_key (label ch) n
                 /\ (a <= n < a + Dict.len cells)%nat.
Proof.
  unfold Dict.keys, Dict.len.
  induction cells as [| [k' c] cells IH]; simpl; intros a k Hk Hin;
    [contradiction |].
  destruct Hk as [[_ [ch Hch]] Hrest]. destruct Hin as [<- | Hin].
  - exists ch, a. split; [exact Hch | lia].
  - destruct (IH (S a) k Hrest Hin) as (ch' & n & Hn & Hr).
    exists ch', n. split; [exact Hn | lia].
Qed.

(** A number past the numbered range is a free key. *)
Lemma keyed_from_fresh (cells : Dict.dict Cell.cell) (a n : nat) (t : string) :
  keyed_from a cells -> (a + Dict.len cells <= n)%nat ->
  Dict.get (App.cell_key t n) cells = None.
Proof.
  intros Hk Hn. apply get_None_keys. intros Hin.
  destruct (keyed_from_keys cells a _ Hk Hin) as (ch & m & Hm & Hr).
  apply cell_key_number in Hm. lia.
Qed.

Lemma keyed_from_NoDup (cells : Dict.dict Cell.cell) :
  forall a, keyed_from a cells -> NoDup (Dict.keys cells).
Proof.
  induction cells as [| [k c] cells IH]; simpl; intros a Hk;
    [constructor |].
  destruct Hk as [[_ [ch Hch]] Hrest]. constructor; [| eapply IH; eassumption].
  intros Hin.
  destruct (keyed_from_keys cells (S a) k Hrest Hin) as (ch' & m & Hm & Hr).
  rewrite Hch in Hm. apply cell_key_number in Hm. lia.
Qed.

Lemma keyed_from_app (xs ys : Dict.dict Cell.cell) :
  forall a, keyed_from a xs -> keyed_from (a + Dict.len xs) ys ->
    keyed_from a (xs ++ ys)%list.
Proof.
  unfold Dict.len.
  induction xs as [| [k c] xs IH]; simpl; intros a Hx Hy.
  - rewrite Nat.add_0_r in Hy. exact Hy.
  - destruct Hx as [Hkc Hx]. split; [exact Hkc |].
    apply IH; [exact Hx |]. replace (S a + List.length xs)%nat
      with (a + S (List.length xs))%nat by lia. exact Hy.
Qed.

(** The loop of "Add Cells" over free keys appends one entry per index,
    in index order. *)
Lemma add_cells_append (ch : chemistry) (start_id n : nat) :
  forall (a : nat) (cells : Dict.dict Cell.cell) (s : Source),
    (forall i, (a <= i < a + n)%nat ->
       Dict.get (App.cell_key (label ch) (start_id + i)) cells = None) ->
    exists news,
      fst (for_fold (App.add_cell (label ch) start_id) cells (seq a n) s) =
      (cells ++ news)%list
      /\ Forall2 (batch_item ch start_id) (seq a n) news.
Proof.
  induction n as [| n IH]; intros a cells s Hfresh.
  - exists []. cbn [seq for_fold]. unfold ret. cbn [fst].
    rewrite app_nil_r. split; [reflexivity | constructor].
  - cbn [seq]. rewrite CellFacts.for_fold_cons, CellFacts.add_cell_eq.
    set (c := fst (App.generate_cell_data (Str.lower (label ch))
                     (start_id + a) s)).
    set (s1 := snd (App.generate_cell_data (Str.lower (label ch))
                      (start_id + a) s)).
    cbn [fst snd].
    rewrite (set_absent _ c cells) by (apply Hfresh; lia).
    destruct (IH (S a)
                (cells ++ [(App.cell_key (label ch) (start_id + a), c)])%list
                s1) as (news & Heq & Hnews).
    + intros i Hi.
      rewrite <- (set_absent _ c cells) by (apply Hfresh; lia).
      rewrite get_set_other; [apply Hfresh; lia |].
      intros Heq. apply cell_key_inj in Heq. lia.
    + exists ((App.cell_key (label ch) (start_id + a), c) :: news).
      split.
      * rewrite Heq, <- app_assoc. reflexivity.
      * constructor; [| exact Hnews].
        split; [reflexivity | exists s; reflexivity].
Qed.

Lemma batch_keyed (ch : chemistry) (start_id : nat) (news : list _) :
  forall a, Forall2 (batch_item ch start_id) (seq a (List.length news)) news ->
    keyed_from (start_id + a) news.
Proof.
  induction news as [| [k c] news IH]; simpl; intros a H; [exact I |].
  inversion H as [| ? ? ? ? [Hk [s0 Hc]] Hrest]; subst. simpl in Hk, Hc.
  split.
  - split; [| exists ch; exact Hk].
    rewrite Hc, Hk.
    apply (CellFacts.generate_cell_data_fields ch (start_id + a) s0).
  - replace (S (start_id + a)) with (start_id + S a)%nat by lia.
    apply IH. exact Hrest.
Qed.

End KeyFacts.

(* ================================================================= *)
(** ** The invariant of the reachable sessions *)

Module SessionFacts.

Import PyNum PyNumFacts Random RandomFacts Inv Shape DictFacts KeyFacts.

Local Open Scope Q_scope.

Lemma chem_cell_bounds_ok (c : Cell.cell) : chem_cell c -> bounds_ok c.
Proof.
  intros (ch & _ & Hlo & Hhi). unfold bounds_ok. rewrite Hlo, Hhi.
  destruct ch; simpl; repeat split;
    solve [ vm_compute; discriminate | vm_compute; reflexivity ].
Qed.

Lemma chem_cell_range (c : Cell.cell) :
  chem_cell c -> 2.8 <= Cell.min_voltage c /\ Cell.max_voltage c <= 4.0.
Proof.
  intros (ch & _ & Hlo & Hhi). rewrite Hlo, Hhi.
  destruct ch; simpl; split; vm_compute; discriminate.
Qed.

Lemma generated_chem_cell (ch : chemistry) (n : nat) (s : Source) :
  let c := fst (App.generate_cell_data (Str.lower (label ch)) n s) in
  chem_cell c /\ voltage_in_bounds c.
Proof.
  destruct ch; (split; [exists LFP + exists NMC; repeat split |]);
    unfold voltage_in_bounds; simpl; split; vm_compute; discriminate.
Qed.

Lemma store_cell_capacity_nonneg (c : Cell.cell) (dv dt dc : Q) :
  chem_cell c -> 0 <= Cell.capacity (App.store_cell c dv dt dc).
Proof.
  intros Hc. simpl.
  apply RegistryFacts.py_round_above; [reflexivity |].
  destruct (chem_cell_range c Hc) as [Hlo _].
  pose proof (py_max_l (Cell.min_voltage c)
                (py_min (Cell.max_voltage c) (Cell.voltage c + dv))) as Hv.
  pose proof (py_max_l 0 (Cell.current c + dc)) as Hcur.
  unfold App.new_voltage, App.new_current.
  apply Qmult_le_0_compat; [lra | exact Hcur].
Qed.

Lemma ticked_keys (cells cells' : Dict.dict Cell.cell) :
  Forall2 ticked cells cells' -> Dict.keys cells' = Dict.keys cells.
Proof.
  unfold Dict.keys.
  induction 1 as [| [k c] [k' c'] l l' [Hk _] _ IH]; simpl; [reflexivity |].
  simpl in Hk. rewrite Hk, IH. reflexivity.
Qed.

Lemma ticked_same_cell (cells cells' : Dict.dict Cell.cell) :
  Forall2 ticked cells cells' -> Forall2 same_cell cells cells'.
Proof.
  apply Forall2_impl. intros [k c] [k' c'] (Hk & dv & dt & dc & Heq).
  simpl in *. split; [exact Hk |]. simpl. rewrite Heq.
  unfold same_identity. simpl. repeat split.
Qed.

Lemma same_cell_keyed (cells cells' : Dict.dict Cell.cell) :
  Forall2 same_cell cells cells' ->
  forall a, keyed_from a cells -> keyed_from a cells'.
Proof.
  induction 1 as [| [k c] [k' c'] l l' [Hk Hid] _ IH]; simpl; intros a Hkf;
    [exact I |].
  simpl in Hk. destruct Hid as (Hcid & _). simpl in Hcid.
  destruct Hkf as [[Hc Hch] Hrest]. subst k'.
  split; [split; [congruence | exact Hch] | apply IH; exact Hrest].
Qed.

Lemma same_cell_chem (cells cells' : Dict.dict Cell.cell) :
  Forall2 same_cell cells cells' ->
  Forall chem_cell (Dict.values cells) ->
  Forall chem_cell (Dict.values cells').
Proof.
  unfold Dict.values.
  induction 1 as [| [k c] [k' c'] l l' [_ Hid] _ IH]; simpl; intros Hc;
    [constructor |].
  inversion Hc as [| ? ? (ch & Ht & Hlo & Hhi) Hrest]; subst.
  destruct Hid as (_ & Ht' & Hlo' & Hhi' & _). simpl in *.
  constructor; [| apply IH; exact Hrest].
  exists ch. repeat split; congruence.
Qed.

(** The samples taken of a registry that was just ticked. *)
Lemma ticked_samples (ts : datetime) (cells cells' : Dict.dict Cell.cell) :
  Forall2 ticked cells cells' ->
  Forall chem_cell (Dict.values cells) ->
  forall keys, incl (Dict.keys cells') keys ->
    Forall (fun smp =>
              In (Sample.cell_id smp) keys
              /\ (2.8 <= Sample.voltage smp /\ Sample.voltage smp <= 4.0
                  /\ 20 <= Sample.temp smp /\ Sample.temp smp <= 50
                  /\ 0 <= Sample.current smp /\ 0 <= Sample.capacity smp))
      (map (App.sample_of ts) cells').
Proof.
  unfold Dict.values, Dict.keys.
  induction 1 as [| [k c] [k' c'] l l' (Hk & dv & dt & dc & Heq) _ IH];
    simpl; intros Hc keys Hincl; [constructor |].
  inversion Hc as [| ? ? Hchem Hrest]; subst. simpl in Heq.
  constructor.
  - simpl. split; [apply Hincl; left; reflexivity |].
    pose proof (RegistryFacts.store_cell_in_range c dv dt dc
                  (chem_cell_bounds_ok c Hchem))
      as (Hv1 & Hv2 & Ht1 & Ht2 & Hcur).
    pose proof (store_cell_capacity_nonneg c dv dt dc Hchem) as Hcap.
    destruct (chem_cell_range c Hchem) as [Hlo Hhi].
    rewrite Heq. simpl in *. repeat split; try assumption; lra.
  - apply IH; [exact Hrest |]. intros x Hx. apply Hincl. right. exact Hx.
Qed.

Lemma sample_ok_keys (cells cells' : Dict.dict Cell.cell) (smp : Sample.sample) :
  incl (Dict.keys cells) (Dict.keys cells') ->
  sample_ok cells smp -> sample_ok cells' smp.
Proof. intros Hincl [Hin Hv]. split; [apply Hincl; exact Hin | exact Hv]. Qed.

Local Close Scope Q_scope.

Lemma keys_set {V} (k : string) (v : V) (d : Dict.dict V) :
  Dict.keys (Dict.set k v d) =
  match Dict.get k d with
  | Some _ => Dict.keys d
  | None => (Dict.keys d ++ [k])%list
  end.
Proof.
  unfold Dict.keys. induction d as [| [k' v'] d IH]; simpl; [reflexivity |].
  destruct (String.eqb k k'); simpl; [reflexivity |].
  rewrite IH. destruct (Dict.get k d); reflexivity.
Qed.

Lemma NoDup_keys_set {V} (k : string) (v : V) (d : Dict.dict V) :
  NoDup (Dict.keys d) -> NoDup (Dict.keys (Dict.set k v d)).
Proof.
  intros Hnd. rewrite keys_set. destruct (Dict.get k d) eqn:E; [exact Hnd |].
  apply get_None_keys in E.
  apply NoDup_app; [exact Hnd | repeat constructor; simpl; tauto |].
  intros x Hx [<- | []]. exact (E Hx).
Qed.

Lemma keys_del_incl {V} (k : string) (d : Dict.dict V) :
  incl (Dict.keys (Dict.del k d)) (Dict.keys d).
Proof.
  unfold Dict.keys. induction d as [| [k' v'] d IH]; simpl;
    [apply incl_refl |].
  destruct (String.eqb k k'); simpl.
  - apply incl_tl, incl_refl.
  - intros x [<- | Hx]; [left; reflexivity | right; apply IH; exact Hx].
Qed.

Lemma NoDup_keys_del {V} (k : string) (d : Dict.dict V) :
  NoDup (Dict.keys d) -> NoDup (Dict.keys (Dict.del k d)).
Proof.
  unfold Dict.keys. induction d as [| [k' v'] d IH]; simpl; intros Hnd;
    [constructor |].
  inversion Hnd as [| ? ? Hn Hrest]; subst.
  destruct (String.eqb k k'); simpl; [exact Hrest |].
  constructor; [| apply IH; exact Hrest].
  intros Hin. apply Hn. apply (keys_del_incl k d). exact Hin.
Qed.

Lemma same_key_keys (R : Task.task -> Task.task -> Prop)
    (tasks tasks' : Dict.dict Task.task) :
  Forall2 (same_key R) tasks tasks' -> Dict.keys tasks' = Dict.keys tasks.
Proof.
  unfold Dict.keys.
  induction 1 as [| [k t] [k' t'] l l' [Hk _] _ IH]; simpl; [reflexivity |].
  simpl in Hk. rewrite Hk, IH. reflexivity.
Qed.

(** "Add Cells" on a registry numbered from 1: the batch is appended. *)
Lemma create_cells_append (ch : chemistry) (count : nat)
    (st : SessionState) (s : Source) :
  keyed_from 1 (cells_data st) ->
  exists news,
    cells_data (fst (App.create_cells (label ch) count st s)) =
    (cells_data st ++ news)%list
    /\ Forall2 (batch_item ch (Dict.len (cells_data st) + 1))
         (seq 0 count) news.
Proof.
  intros Hk.
  destruct (CellFacts.create_cells_fields (label ch) count st s) as (-> & _).
  apply add_cells_append. intros i _.
  apply (keyed_from_fresh _ 1); [exact Hk | lia].
Qed.

Lemma step_session_ok (st st' : SessionState) :
  step st st' -> session_ok st -> session_ok st'.
Proof.
  intros H (Hk & Hc & Hv & Hh & Hn & Ht). destruct H as
    [ch count src st _ | now src st | st | st | b st | f st
    | task_id st st' H | task_id st st' H | src st Hs].
  - destruct (create_cells_append ch count st src Hk) as (news & Heq & Hnews).
    destruct (CellFacts.create_cells_fields (label ch) count st src)
      as (_ & Htasks & _ & Hhist & Htime).
    unfold session_ok. rewrite Heq, Htasks, Hhist, Htime.
    assert (Hlen : List.length news = count).
    { apply Forall2_length in Hnews. rewrite length_seq in Hnews. lia. }
    assert (Hgen : Forall (fun c => chem_cell c /\ voltage_in_bounds c)
                     (Dict.values news)).
    { clear Heq Hlen. unfold Dict.values.
      induction Hnews as [| i [k c] l l' [_ [s0 Hc0]] _ IH]; simpl;
        constructor; [| exact IH].
      simpl in Hc0. rewrite Hc0. apply generated_chem_cell. }
    unfold Dict.values in *. rewrite map_app.
    repeat split; try assumption.
    + apply keyed_from_app; [exact Hk |].
      replace (1 + Dict.len (cells_data st))%nat
        with (Dict.len (cells_data st) + 1 + 0)%nat by lia.
      apply (batch_keyed ch). rewrite Hlen. exact Hnews.
    + apply Forall_app. split; [exact Hc |].
      eapply Forall_impl; [| exact Hgen]. intros c [H1 _]. exact H1.
    + apply Forall_app. split; [exact Hv |].
      eapply Forall_impl; [| exact Hgen]. intros c [_ H2]. exact H2.
    + eapply Forall_impl; [| exact Hh]. intros smp.
      apply sample_ok_keys. unfold Dict.keys. rewrite map_app.
      apply incl_appl, incl_refl.
  - destruct (TickFacts.tick_cells now st src) as [[Hne H2] | [_ ->]];
      [| repeat split; assumption].
    destruct (TickFacts.tick_nonempty now st src Hne)
      as (_ & Hhist & Htime & Htasks & _).
    unfold session_ok. rewrite Hhist, Htime, Htasks.
    pose proof (ticked_same_cell _ _ H2) as Hsame.
    repeat split; try assumption; try lia.
    + apply (same_cell_keyed _ _ Hsame). exact Hk.
    + apply (same_cell_chem _ _ Hsame). exact Hc.
    + destruct (RegistryFacts.ticked_registry _ _ H2) as [Hr _].
      * eapply Forall_impl; [| exact Hc]. apply chem_cell_bounds_ok.
      * eapply Forall_impl; [| exact Hr].
        intros c (H1 & H3 & _). split; assumption.
    + apply Forall_app. split.
      * eapply Forall_impl; [| exact Hh]. intros smp.
        apply sample_ok_keys. rewrite (ticked_keys _ _ H2). apply incl_refl.
      * apply (ticked_samples _ _ _ H2 Hc). apply incl_refl.
  - repeat split; try assumption; constructor.
  - repeat split; try assumption; [constructor | simpl; lia].
  - repeat split; assumption.
  - repeat split; try assumption. simpl. apply NoDup_keys_set. exact Hn.
  - unfold App.start_task in H.
    destruct (Dict.get task_id (tasks_data st)); [| discriminate].
    injection H as <-. repeat split; try assumption.
    simpl. apply NoDup_keys_set. exact Hn.
  - unfold App.delete_task in H.
    destruct (Dict.get task_id (tasks_data st)); [| discriminate].
    injection H as <-. repeat split; try assumption.
    simpl. apply NoDup_keys_del. exact Hn.
  - destruct (TaskFacts.advance_progress_advanced st src Hs)
      as (H2 & Hcells & Hhist & Htime & _).
    unfold session_ok. rewrite Hcells, Hhist, Htime.
    repeat split; try assumption.
    rewrite (same_key_keys _ _ _ H2). exact Hn.
Qed.

Lemma reachable_session_ok (st : SessionState) :
  reachable st -> session_ok st.
Proof.
  induction 1 as [| st st' _ IH Hstep].
  - repeat split; try constructor. simpl. lia.
  - exact (step_session_ok st st' Hstep IH).
Qed.

Lemma keyed_from_nth (cells : Dict.dict Cell.cell) :
  forall a i k c, keyed_from a cells -> nth_error cells i = Some (k, c) ->
    Cell.cell_id c = k /\ exists ch, k = App.cell_key (label ch) (a + i).
Proof.
  induction cells as [| [k' c'] cells IH]; intros a [| i] k c Hk Hn;
    simpl in *; try discriminate.
  - injection Hn as -> ->. rewrite Nat.add_0_r. tauto.
  - destruct Hk as [_ Hk]. replace (a + S i)%nat with (S a + i)%nat by lia.
    apply (IH (S a) i k c Hk Hn).
Qed.

Lemma one_cell_reachable : reachable Examples.one_cell.
Proof.
  apply (reachable_step App.initialize_session_state).
  - constructor.
  - apply (step_create_cells LFP 1 Examples.one_cell_source). lia.
Qed.

Lemma one_cell_ticked_reachable (now : datetime) :
  reachable (Examples.one_cell_ticked now).
Proof.
  apply (reachable_step Examples.one_cell);
    [exact one_cell_reachable | apply step_tick].
Qed.

End SessionFacts.

(* ================================================================= *)
(** ** Further properties of the cell registry *)

Module RegistryExtras.

Import PyNum Random RandomFacts Inv Shape DictFacts KeyFacts SessionFacts.

(** X1: in every session the application reaches, the cell at position [i]
    of the registry (counted from 0) is stored under the key
    [cell_(i+1)_<type>] of a chemistry, its ["cell_id"] field is that key,
    and no key occurs twice. *)
Theorem reachable_registry_keys (st : SessionState) :
  reachable st ->
  NoDup (Dict.keys (cells_data st))
  /\ forall i k c,
       nth_error (cells_data st) i = Some (k, c) ->
       Cell.cell_id c = k
       /\ exists ch, k = App.cell_key (label ch) (S i).
Proof.
  intros Hr. destruct (reachable_session_ok st Hr) as (Hk & _).
  split; [exact (keyed_from_NoDup _ 1 Hk) |].
  intros i k c Hn. exact (keyed_from_nth _ 1 i k c Hk Hn).
Qed.

Lemma reachable_registry_keys_witness :
  NoDup (Dict.keys (cells_data (Examples.one_cell_ticked 0)))
  /\ forall i k c,
       nth_error (cells_data (Examples.one_cell_ticked 0)) i = Some (k, c) ->
       Cell.cell_id c = k
       /\ exists ch, k = App.cell_key (label ch) (S i).
Proof.
  apply (reachable_registry_keys (Examples.one_cell_ticked 0)).
  apply (reachable_step Examples.one_cell).
  - apply (reachable_step App.initialize_session_state).
    + constructor.
    + apply (step_create_cells LFP 1 Examples.one_cell_source). lia.
  - apply step_tick.
Defined.

(** X2: in a reachable session "Add Cells" never overwrites: the batch of
    [count] cells is appended after the existing entries, which stay as
    they are, entry [i] of the batch under the key of number
    [len + 1 + i]; the registry grows by exactly [count]. *)
Theorem reachable_create_cells_appends
    (ch : chemistry) (count : nat) (st : SessionState) (s : Source) :
  reachable st ->
  let st' := fst (App.create_cells (label ch) count st s) in
  Dict.len (cells_data st') = (Dict.len (cells_data st) + count)%nat
  /\ exists news,
       cells_data st' = (cells_data st ++ news)%list
       /\ Forall2 (batch_item ch (Dict.len (cells_data st) + 1))
            (seq 0 count) news.
Proof.
  intros Hr st'. destruct (reachable_session_ok st Hr) as (Hk & _).
  destruct (create_cells_append ch count st s Hk) as (news & Heq & Hnews).
  fold st' in Heq. split; [| exists news; split; assumption].
  rewrite Heq. unfold Dict.len. rewrite length_app.
  apply Forall2_length in Hnews. rewrite length_seq in Hnews. lia.
Qed.

Lemma reachable_create_cells_appends_witness :
  let st' :=
    fst (App.create_cells "NMC" 3 Examples.one_cell
           Examples.one_cell_source) in
  Dict.len (cells_data st') = (Dict.len (cells_data Examples.one_cell) + 3)%nat
  /\ exists news,
       cells_data st' = (cells_data Examples.one_cell ++ news)%list
       /\ Forall2 (batch_item NMC (Dict.len (cells_data Examples.one_cell) + 1))
            (seq 0 3) news.
Proof.
  apply (reachable_create_cells_appends NMC 3 Examples.one_cell
           Examples.one_cell_source).
  apply (reachable_step App.initialize_session_state).
  - constructor.
  - apply (step_create_cells LFP 1 Examples.one_cell_source). lia.
Defined.

(** X3: in every reachable session, ticked or not, every cell has the type
    and the bounds of a chemistry and a voltage within its own bounds,
    hence between 2.8 V and 4.0 V. *)
Theorem reachable_voltage_in_bounds (st : SessionState) :
  reachable st ->
  Forall
    (fun c =>
       chem_cell c
       /\ (Cell.min_voltage c <= Cell.voltage c
           /\ Cell.voltage c <= Cell.max_voltage c
           /\ 2.8 <= Cell.voltage c /\ Cell.voltage c <= 4.0)%Q)
    (Dict.values (cells_data st)).
Proof.
  intros Hr. destruct (reachable_session_ok st Hr) as (_ & Hc & Hv & _).
  apply Forall_forall. intros c Hin.
  rewrite Forall_forall in Hc, Hv.
  specialize (Hc c Hin). destruct (Hv c Hin) as [H1 H2].
  destruct (chem_cell_range c Hc) as [Hlo Hhi].
  split; [exact Hc |]. repeat split; try assumption; lra.
Qed.

Lemma reachable_voltage_in_bounds_witness :
  Forall
    (fun c =>
       chem_cell c
       /\ (Cell.min_voltage c <= Cell.voltage c
           /\ Cell.voltage c <= Cell.max_voltage c
           /\ 2.8 <= Cell.voltage c /\ Cell.voltage c <= 4.0)%Q)
    (Dict.values (cells_data Examples.one_cell)).
Proof.
  apply (reachable_voltage_in_bounds Examples.one_cell).
  apply (reachable_step App.initialize_session_state).
  - constructor.
  - apply (step_create_cells LFP 1 Examples.one_cell_source). lia.
Defined.

(** X4: in every reachable session every sample of the history belongs to
    a cell that is still in the registry, and holds a voltage between
    2.8 and 4.0, a temperature between 20 and 50, and a current and a
    capacity that are not negative. *)
Theorem reachable_history_ok (st : SessionState) :
  reachable st ->
  Forall (sample_ok (cells_data st)) (historical_data st).
Proof.
  intros Hr. apply (reachable_session_ok st Hr).
Qed.

Lemma reachable_history_ok_witness :
  Forall (sample_ok (cells_data (Examples.one_cell_ticked 5000000)))
    (historical_data (Examples.one_cell_ticked 5000000)).
Proof.
  apply (reachable_history_ok (Examples.one_cell_ticked 5000000)).
  apply (reachable_step Examples.one_cell).
  - apply (reachable_step App.initialize_session_state).
    + constructor.
    + apply (step_create_cells LFP 1 Examples.one_cell_source). lia.
  - apply step_tick.
Defined.

Lemma same_cell_refl (cells : Dict.dict Cell.cell) :
  Forall2 same_cell cells cells.
Proof.
  apply Forall2_refl. intros [k c]. repeat split.
Qed.

Lemma same_cell_trans (xs ys zs : Dict.dict Cell.cell) :
  Forall2 same_cell xs ys -> Forall2 same_cell ys zs ->
  Forall2 same_cell xs zs.
Proof.
  apply Forall2_compose.
  intros [k c] [k1 c1] [k2 c2] [Hk (H1 & H2 & H3 & H4 & H5)]
    [Hk' (H1' & H2' & H3' & H4' & H5')].
  simpl in *. split; [simpl; congruence |].
  unfold same_identity. simpl. repeat split; congruence.
Qed.

(** Ticks in a row on a non-empty registry. *)
Lemma run_ticks_fields (nows : list datetime) :
  forall (st : SessionState) (s : Source),
    Dict.truthy (cells_data st) = true ->
    let st' := fst (App.run_ticks nows st s) in
    Forall2 same_cell (cells_data st) (cells_data st')
    /\ List.length (historical_data st') =
       (List.length (historical_data st)
        + List.length nows * Dict.len (cells_data st))%nat
    /\ current_time st' = current_time st + Z.of_nat (List.length nows)
    /\ tasks_data st' = tasks_data st.
Proof.
  induction nows as [| now nows IH]; intros st s Hne.
  - cbv zeta. cbn [App.run_ticks]. unfold ret. cbn [fst List.length].
    split; [apply same_cell_refl |].
    split; [lia |]. split; [lia | reflexivity].
  - cbv zeta. cbn [App.run_ticks]. unfold bind.
    destruct (TickFacts.tick_nonempty now st s Hne)
      as (H2 & Hhist & Htime & Htasks & _).
    destruct (App.simulate_real_time_data now st s) as [st1 s1].
    cbn [fst] in *.
    assert (Hlen : Dict.len (cells_data st1) = Dict.len (cells_data st)).
    { symmetry. exact (Forall2_length H2). }
    assert (Hne1 : Dict.truthy (cells_data st1) = true).
    { unfold Dict.len in Hlen. destruct (cells_data st1); [| reflexivity].
      destruct (cells_data st); [discriminate | discriminate]. }
    destruct (IH st1 s1 Hne1) as (HF & HL & HT & HK).
    split; [exact (same_cell_trans _ _ _ (ticked_same_cell _ _ H2) HF) |].
    split; [| split; [| congruence]].
    + unfold Dict.len in *.
      rewrite HL, Hhist, length_app, length_map, Hlen. simpl. lia.
    + rewrite HT, Htime. simpl List.length. lia.
Qed.

(** X5: [n] ticks in a row on a non-empty registry keep the keys, their
    order and the static fields of every cell (id, type, bounds, status),
    append [n] times as many samples as there are cells, add [n] to the
    tick counter and leave the tasks alone. *)
Theorem run_ticks_counts
    (nows : list datetime) (st : SessionState) (s : Source) :
  cells_data st <> [] ->
  let st' := fst (App.run_ticks nows st s) in
  Forall2 same_cell (cells_data st) (cells_data st')
  /\ List.length (historical_data st') =
     (List.length (historical_data st)
      + List.length nows * Dict.len (cells_data st))%nat
  /\ current_time st' = current_time st + Z.of_nat (List.length nows)
  /\ tasks_data st' = tasks_data st.
Proof.
  intros Hne. apply run_ticks_fields.
  destruct (cells_data st); [congruence | reflexivity].
Qed.

Lemma run_ticks_counts_witness :
  let st' :=
    fst (App.run_ticks [0; 1000000; 2000000] Examples.one_cell
           (snd Examples.one_cell_created)) in
  Forall2 same_cell (cells_data Examples.one_cell) (cells_data st')
  /\ List.length (historical_data st') =
     (List.length (historical_data Examples.one_cell)
      + 3 * Dict.len (cells_data Examples.one_cell))%nat
  /\ current_time st' = current_time Examples.one_cell + 3
  /\ tasks_data st' = tasks_data Examples.one_cell.
Proof.
  apply (run_ticks_counts [0; 1000000; 2000000] Examples.one_cell
           (snd Examples.one_cell_created)).
  discriminate.
Defined.

(** X6: of two ticks in a row on a non-empty registry, read at the clock
    values [now1] and [now2], the first stamps its samples [now1] plus
    the counter in seconds and the second [now2] plus the counter plus
    one second: between two ticks the stamps advance by the elapsed clock
    time and one second more. *)
Theorem consecutive_ticks_stamps
    (now1 now2 : datetime) (st : SessionState) (s : Source) :
  cells_data st <> [] ->
  let st2 := fst (App.run_ticks [now1; now2] st s) in
  exists first second,
    historical_data st2 = (historical_data st ++ first ++ second)%list
    /\ List.length first = Dict.len (cells_data st)
    /\ List.length second = Dict.len (cells_data st)
    /\ Forall
         (fun smp =>
            Sample.timestamp smp =
            now1 + timedelta_seconds (current_time st))
         first
    /\ Forall
         (fun smp =>
            Sample.timestamp smp =
            now2 + timedelta_seconds (current_time st) + 1000000)
         second.
Proof.
  intros Hne0 st2.
  assert (Hne : Dict.truthy (cells_data st) = true).
  { destruct (cells_data st); [congruence | reflexivity]. }
  subst st2. cbn [App.run_ticks]. unfold bind, ret.
  destruct (TickFacts.tick_nonempty now1 st s Hne)
    as (H1 & Hhist1 & Htime1 & _).
  destruct (App.simulate_real_time_data now1 st s) as [st1 s1].
  cbn [fst] in *.
  assert (Hne1 : Dict.truthy (cells_data st1) = true).
  { apply Forall2_length in H1.
    destruct (cells_data st1); [| reflexivity].
    destruct (cells_data st); [discriminate | discriminate]. }
  destruct (TickFacts.tick_nonempty now2 st1 s1 Hne1)
    as (H2 & Hhist2 & Htime2 & _).
  destruct (App.simulate_real_time_data now2 st1 s1) as [st2 s2].
  cbn [fst] in *.
  exists (map (App.sample_of (now1 + timedelta_seconds (current_time st)))
            (cells_data st1)),
         (map (App.sample_of (now2 + timedelta_seconds (current_time st1)))
            (cells_data st2)).
  split; [rewrite Hhist2, Hhist1, <- app_assoc; reflexivity |].
  split; [rewrite length_map; symmetry; exact (Forall2_length H1) |].
  split.
  { rewrite length_map. unfold Dict.len.
    rewrite (Forall2_length H1). symmetry. exact (Forall2_length H2). }
  split; apply Forall_forall; intros smp Hin; apply in_map_iff in Hin;
    destruct Hin as ([k c] & <- & _); simpl; [reflexivity |].
  rewrite Htime1. unfold timedelta_seconds. lia.
Qed.

Lemma consecutive_ticks_stamps_witness :
  let st2 :=
    fst (App.run_ticks [5000000; 6000000] Examples.one_cell
           (snd Examples.one_cell_created)) in
  exists first second,
    historical_data st2 =
      (historical_data Examples.one_cell ++ first ++ second)%list
    /\ List.length first = Dict.len (cells_data Examples.one_cell)
    /\ List.length second = Dict.len (cells_data Examples.one_cell)
    /\ Forall
         (fun smp =>
            Sample.timestamp smp =
            5000000 + timedelta_seconds (current_time Examples.one_cell))
         first
    /\ Forall
         (fun smp =>
            Sample.timestamp smp =
            6000000 + timedelta_seconds (current_time Examples.one_cell)
            + 1000000)
         second.
Proof.
  apply (consecutive_ticks_stamps 5000000 6000000 Examples.one_cell
           (snd Examples.one_cell_created)).
  discriminate.
Defined.

End RegistryExtras.

(* ================================================================= *)
(** ** Further properties of the task ledger *)

Module LedgerExtras.

Import PyNum PyNumFacts Random RandomFacts Inv Shape DictFacts KeyFacts
  SessionFacts.

Lemma get_del_other {V} (k k' : string) (d : Dict.dict V) :
  k <> k' -> Dict.get k (Dict.del k' d) = Dict.get k d.
Proof.
  intros Hne. induction d as [| [k0 v0] d IH]; simpl; [reflexivity |].
  destruct (String.eqb_spec k' k0) as [-> | Hk0]; simpl.
  - apply String.eqb_neq in Hne. rewrite Hne. reflexivity.
  - rewrite IH. reflexivity.
Qed.

Lemma get_del_same {V} (k : string) (d : Dict.dict V) :
  NoDup (Dict.keys d) -> Dict.get k (Dict.del k d) = None.
Proof.
  unfold Dict.keys. induction d as [| [k0 v0] d IH]; simpl; intros Hnd;
    [reflexivity |].
  inversion Hnd as [| ? ? Hn Hrest]; subst.
  destruct (String.eqb_spec k k0) as [-> | Hk0]; simpl.
  - apply get_None_keys. exact Hn.
  - apply String.eqb_neq in Hk0. rewrite Hk0. apply IH. exact Hrest.
Qed.

Lemma len_del {V} (k : string) (v : V) (d : Dict.dict V) :
  Dict.get k d = Some v -> S (Dict.len (Dict.del k d)) = Dict.len d.
Proof.
  unfold Dict.len. induction d as [| [k0 v0] d IH]; simpl; [discriminate |].
  destruct (String.eqb k k0); simpl; [reflexivity |].
  intros H. rewrite IH by exact H. reflexivity.
Qed.

(** X7: the "Delete" handler fails with [KeyError] exactly for an id that
    is not in the ledger; for an id that is, the task is gone afterwards,
    the ledger is one shorter, every other id still has its task, and the
    rest of the session is unchanged. *)
Theorem delete_task_removes (task_id : string) (st : SessionState) :
  NoDup (Dict.keys (tasks_data st)) ->
  match Dict.get task_id (tasks_data st) with
  | None => App.delete_task task_id st = None
  | Some _ =>
      exists st',
        App.delete_task task_id st = Some st'
        /\ Dict.get task_id (tasks_data st') = None
        /\ S (Dict.len (tasks_data st')) = Dict.len (tasks_data st)
        /\ (forall k, k <> task_id ->
              Dict.get k (tasks_data st') = Dict.get k (tasks_data st))
        /\ cells_data st' = cells_data st
        /\ historical_data st' = historical_data st
        /\ current_time st' = current_time st
  end.
Proof.
  intros Hnd. unfold App.delete_task.
  destruct (Dict.get task_id (tasks_data st)) as [t |] eqn:E;
    [| reflexivity].
  eexists. split; [reflexivity |]. simpl.
  split; [apply get_del_same; exact Hnd |].
  split; [exact (len_del _ _ _ E) |].
  split; [intros k Hk; apply get_del_other; exact Hk |].
  repeat split.
Qed.

Lemma delete_task_removes_witness :
  exists st',
    App.delete_task "task_1" Examples.two_added = Some st'
    /\ Dict.get "task_1" (tasks_data st') = None
    /\ S (Dict.len (tasks_data st')) =
       Dict.len (tasks_data Examples.two_added)
    /\ (forall k, k <> "task_1" ->
          Dict.get k (tasks_data st') =
          Dict.get k (tasks_data Examples.two_added))
    /\ cells_data st' = cells_data Examples.two_added
    /\ historical_data st' = historical_data Examples.two_added
    /\ current_time st' = current_time Examples.two_added.
Proof.
  apply (delete_task_removes "task_1" Examples.two_added).
  vm_compute. repeat constructor; simpl; intuition discriminate.
Defined.

(** X8: the "Start" handler fails with [KeyError] exactly for an id that
    is not in the ledger; for an id that is, it sets that task to Running
    whatever its status was and keeps its form and its progress; the keys
    and their order, every other task and the rest of the session are
    unchanged. *)
Theorem start_task_frame (task_id : string) (st : SessionState) :
  match Dict.get task_id (tasks_data st) with
  | None => App.start_task task_id st = None
  | Some t =>
      exists st',
        App.start_task task_id st = Some st'
        /\ Dict.get task_id (tasks_data st') =
           Some (Task.mkTask (Task.form t) Task.Running (Task.progress t))
        /\ Dict.keys (tasks_data st') = Dict.keys (tasks_data st)
        /\ (forall k, k <> task_id ->
              Dict.get k (tasks_data st') = Dict.get k (tasks_data st))
        /\ cells_data st' = cells_data st
        /\ historical_data st' = historical_data st
        /\ current_time st' = current_time st
  end.
Proof.
  unfold App.start_task.
  destruct (Dict.get task_id (tasks_data st)) as [t |] eqn:E;
    [| reflexivity].
  eexists. split; [reflexivity |]. simpl.
  split; [apply get_set_same |].
  split; [rewrite keys_set, E; reflexivity |].
  split; [intros k Hk; apply get_set_other; exact Hk |].
  repeat split.
Qed.

Lemma sequential_fresh (tasks : Dict.dict Task.task) (n : nat) :
  sequential tasks -> (Dict.len tasks < n)%nat ->
  Dict.get (task_key n) tasks = None.
Proof.
  unfold sequential. intros Hs Hn. apply get_None_keys. rewrite Hs.
  intros Hin. apply in_map_iff in Hin. destruct Hin as (m & Hm & Hin).
  apply task_key_inj in Hm. apply in_seq in Hin. lia.
Qed.

Lemma sequential_present (tasks : Dict.dict Task.task) (n : nat) :
  sequential tasks -> (1 <= n <= Dict.len tasks)%nat ->
  In (task_key n) (Dict.keys tasks).
Proof.
  unfold sequential. intros Hs Hn. rewrite Hs.
  apply in_map. apply in_seq. lia.
Qed.

Lemma next_task_id_key (tasks : Dict.dict Task.task) :
  App.next_task_id tasks = task_key (S (Dict.len tasks)).
Proof.
  unfold App.next_task_id, task_key. rewrite Nat.add_1_r. reflexivity.
Qed.

(** X9: on a ledger whose keys are [task_1], ..., [task_n] in order (any
    ledger that has seen no deletion), "Add Task" appends the new Pending
    task at the end under [task_(n+1)], keeps every existing entry, and
    the keys are sequential again. *)
Theorem add_task_sequential (f : Task.task_form) (st : SessionState) :
  sequential (tasks_data st) ->
  tasks_data (App.add_task f st) =
    (tasks_data st
     ++ [(task_key (S (Dict.len (tasks_data st))),
          Task.mkTask f Task.Pending 0)])%list
  /\ sequential (tasks_data (App.add_task f st)).
Proof.
  intros Hs.
  assert (Heq : tasks_data (App.add_task f st) =
                (tasks_data st
                 ++ [(task_key (S (Dict.len (tasks_data st))),
                      Task.mkTask f Task.Pending 0)])%list).
  { simpl. rewrite next_task_id_key. apply set_absent.
    apply sequential_fresh; [exact Hs | lia]. }
  split; [exact Heq |].
  unfold sequential in *. rewrite Heq. unfold Dict.keys, Dict.len in *.
  rewrite map_app, length_app, Hs. simpl.
  rewrite Nat.add_1_r, seq_S, map_app. reflexivity.
Qed.

Lemma add_task_sequential_witness :
  tasks_data (App.add_task (Task.IDLE 30) Examples.two_added) =
    (tasks_data Examples.two_added
     ++ [(task_key (S (Dict.len (tasks_data Examples.two_added))),
          Task.mkTask (Task.IDLE 30) Task.Pending 0)])%list
  /\ sequential (tasks_data (App.add_task (Task.IDLE 30) Examples.two_added)).
Proof.
  apply (add_task_sequential (Task.IDLE 30) Examples.two_added).
  reflexivity.
Defined.

(** X10: on a ledger with the keys [task_1], ..., [task_n], once a task
    other than the last one is deleted, the id computed by "Add Task" is
    [task_n], which is still in use: the new task takes the place of the
    task stored there and the ledger keeps its [n - 1] entries. *)
Theorem add_task_after_inner_delete
    (i : nat) (f : Task.task_form) (st st1 : SessionState) :
  sequential (tasks_data st) ->
  (1 <= i < Dict.len (tasks_data st))%nat ->
  App.delete_task (task_key i) st = Some st1 ->
  let last := task_key (Dict.len (tasks_data st)) in
  let st2 := App.add_task f st1 in
  App.next_task_id (tasks_data st1) = last
  /\ (exists old, Dict.get last (tasks_data st) = Some old
                  /\ Dict.get last (tasks_data st1) = Some old)
  /\ Dict.get last (tasks_data st2) = Some (Task.mkTask f Task.Pending 0)
  /\ Dict.len (tasks_data st2) = Dict.len (tasks_data st1)
  /\ S (Dict.len (tasks_data st2)) = Dict.len (tasks_data st).
Proof.
  intros Hs Hi Hdel last st2. unfold App.delete_task in Hdel.
  destruct (Dict.get (task_key i) (tasks_data st)) as [t |] eqn:E;
    [| discriminate].
  injection Hdel as <-. simpl tasks_data in *.
  pose proof (len_del _ _ _ E) as Hlen.
  assert (Hnext : App.next_task_id (Dict.del (task_key i) (tasks_data st))
                  = last).
  { rewrite next_task_id_key, Hlen. reflexivity. }
  assert (Hother : Dict.get last (Dict.del (task_key i) (tasks_data st))
                   = Dict.get last (tasks_data st)).
  { apply get_del_other. intros Heq. apply task_key_inj in Heq. lia. }
  destruct (Dict.get last (tasks_data st)) as [old |] eqn:Eold.
  2:{ apply get_None_keys in Eold. exfalso. apply Eold.
      apply sequential_present; [exact Hs | lia]. }
  split; [exact Hnext |].
  split; [exists old; split; [reflexivity | exact Hother] |].
  subst st2. simpl tasks_data. rewrite Hnext.
  split; [apply get_set_same |].
  rewrite len_set, Hother. split; [reflexivity | exact Hlen].
Qed.

Lemma add_task_after_inner_delete_witness :
  let last := task_key (Dict.len (tasks_data Examples.two_added)) in
  let st2 := App.add_task (Task.IDLE 30) Examples.first_deleted in
  App.next_task_id (tasks_data Examples.first_deleted) = last
  /\ (exists old, Dict.get last (tasks_data Examples.two_added) = Some old
                  /\ Dict.get last (tasks_data Examples.first_deleted)
                     = Some old)
  /\ Dict.get last (tasks_data st2) =
     Some (Task.mkTask (Task.IDLE 30) Task.Pending 0)
  /\ Dict.len (tasks_data st2) = Dict.len (tasks_data Examples.first_deleted)
  /\ S (Dict.len (tasks_data st2)) = Dict.len (tasks_data Examples.two_added).
Proof.
  apply (add_task_after_inner_delete 1 (Task.IDLE 30) Examples.two_added
           Examples.first_deleted).
  - reflexivity.
  - simpl. lia.
  - reflexivity.
Defined.

(** [n] calls of [advance_progress] relate every task to its successor
    by any relation that holds of no call and extends by one call. *)
Lemma advance_progress_n_rel (R : nat -> Task.task -> Task.task -> Prop) :
  (forall t, R 0%nat t t) ->
  (forall n t t1 t', advanced t t1 -> R n t1 t' -> R (S n) t t') ->
  forall (n : nat) (st : SessionState) (s : Source),
    randint_between 1 5 s ->
    Forall2 (same_key (R n)) (tasks_data st)
      (tasks_data (fst (App.advance_progress_n n st s))).
Proof.
  intros H0 HS. induction n as [| n IH]; intros st s Hs.
  - simpl. apply Forall2_refl. intros [k t]. split; [reflexivity | apply H0].
  - cbn [App.advance_progress_n]. unfold bind.
    destruct (TaskFacts.advance_progress_advanced st s Hs)
      as (H1 & _ & _ & _ & _ & Hs1).
    destruct (App.advance_progress st s) as [st1 s1]. cbn [fst snd] in *.
    apply (Forall2_compose _ _ _ (fun a b c Hab Hbc =>
             conj (eq_trans (proj1 Hbc) (proj1 Hab))
                  (HS n _ _ _ (proj2 Hab) (proj2 Hbc)))
             _ _ _ H1 (IH st1 s1 Hs1)).
Qed.

(** X11: in a ledger of percentages, after 100 calls of
    [advance_progress] or more every task that was Running is Completed
    at progress 100, and every other task is as it was; no task is left
    Running. *)
Theorem advance_progress_100_completes
    (n : nat) (st : SessionState) (s : Source) :
  randint_between 1 5 s ->
  ledger_ok st ->
  (100 <= n)%nat ->
  Forall2
    (same_key
       (fun t t' =>
          match Task.status t with
          | Task.Running =>
              t' = Task.mkTask (Task.form t) Task.Completed 100
          | _ => t' = t
          end))
    (tasks_data st) (tasks_data (fst (App.advance_progress_n n st s))).
Proof.
  intros Hs Hok Hn.
  assert (Hle : Forall (fun t => Task.progress t <= 100)
                  (Dict.values (tasks_data st))).
  { eapply Forall_impl; [| exact Hok]. intros t [_ H]. exact H. }
  pose proof (TaskFacts.advance_progress_n_evolves n st s Hs Hle) as H.
  clear Hle. revert Hok H. unfold ledger_ok, Dict.values.
  generalize (tasks_data (fst (App.advance_progress_n n st s))).
  induction (tasks_data st) as [| [k t] l IH]; intros l' Hok H;
    inversion H as [| ? [k' t'] ? l2 [Hk He] Hrest]; subst;
    constructor.
  - simpl in Hok. inversion Hok as [| ? ? [Hp0 _] _]; subst.
    split; [exact Hk |]. simpl in *.
    destruct He as (Hf & Hp & _ & Hnr & Hrun & Hlow).
    destruct (Task.status t) eqn:E; try (apply Hnr; discriminate).
    specialize (Hlow eq_refl). specialize (Hrun eq_refl ltac:(lia)).
    assert (Hp100 : Task.progress t' = 100) by lia.
    rewrite Hp100 in Hrun. simpl in Hrun.
    destruct t' as [f' s' p']. simpl in *. subst. reflexivity.
  - simpl in Hok. inversion Hok; subst. apply IH; assumption.
Qed.

Lemma advance_progress_100_completes_witness :
  Forall2
    (same_key
       (fun t t' =>
          match Task.status t with
          | Task.Running =>
              t' = Task.mkTask (Task.form t) Task.Completed 100
          | _ => t' = t
          end))
    (tasks_data Examples.idle_started)
    (tasks_data
       (fst (App.advance_progress_n 100 Examples.idle_started
               (Examples.source_of [] 1)))).
Proof.
  apply (advance_progress_100_completes 100 Examples.idle_started
           (Examples.source_of [] 1)).
  - intros n. simpl. lia.
  - unfold ledger_ok, progress_ok. vm_compute.
    repeat constructor; discriminate.
  - lia.
Defined.

Lemma advanced_speed (t t' : Task.task) :
  advanced t t' -> Task.progress t' <= Task.progress t + 5.
Proof.
  unfold advanced. destruct (Task.status t); intros H;
    try (subst t'; lia).
  destruct H as (r & Hr & Hp & _). lia.
Qed.

(** X12: [n] calls of [advance_progress] raise the progress of a task by
    at most [5 * n]; so a Running task at progress [p] is not Completed
    by fewer than [(100 - p) / 5] calls. *)
Theorem advance_progress_n_speed
    (n : nat) (st : SessionState) (s : Source) :
  randint_between 1 5 s ->
  ledger_ok st ->
  Forall2
    (same_key
       (fun t t' =>
          Task.progress t' <= Task.progress t + 5 * Z.of_nat n
          /\ (Task.status t = Task.Running ->
              Task.status t' = Task.Completed ->
              100 <= Task.progress t + 5 * Z.of_nat n)))
    (tasks_data st) (tasks_data (fst (App.advance_progress_n n st s))).
Proof.
  intros Hs Hok.
  assert (Hle : Forall (fun t => Task.progress t <= 100)
                  (Dict.values (tasks_data st))).
  { eapply Forall_impl; [| exact Hok]. intros t [_ H]. exact H. }
  pose proof (TaskFacts.advance_progress_n_evolves n st s Hs Hle) as He.
  pose proof (advance_progress_n_rel
                (fun n t t' =>
                   Task.progress t' <= Task.progress t + 5 * Z.of_nat n)
                ltac:(intros; cbv beta; lia)
                ltac:(intros m t t1 t' Ha Hr; cbv beta in *;
                      apply advanced_speed in Ha; lia)
                n st s Hs) as Hsp.
  clear Hle Hok. revert He Hsp.
  generalize (tasks_data (fst (App.advance_progress_n n st s))).
  induction (tasks_data st) as [| [k t] l IH]; intros l' He Hsp;
    inversion He as [| ? [k' t'] ? l2 [Hk Hev] Hrest]; subst;
    inversion Hsp as [| ? ? ? ? [_ Hspeed] Hrest']; subst;
    constructor; [| apply IH; assumption].
  split; [exact Hk |]. simpl in *. split; [exact Hspeed |].
  intros Hrun Hc. destruct Hev as (_ & _ & H0 & _ & Hst & _).
  destruct n as [| n].
  - rewrite (H0 eq_refl) in Hc. congruence.
  - specialize (Hst Hrun ltac:(lia)). rewrite Hc in Hst.
    destruct (Z.eqb_spec (Task.progress t') 100); [lia | discriminate].
Qed.

Lemma advance_progress_n_speed_witness :
  Forall2
    (same_key
       (fun t t' =>
          Task.progress t' <= Task.progress t + 5 * Z.of_nat 19
          /\ (Task.status t = Task.Running ->
              Task.status t' = Task.Completed ->
              100 <= Task.progress t + 5 * Z.of_nat 19)))
    (tasks_data Examples.idle_started)
    (tasks_data
       (fst (App.advance_progress_n 19 Examples.idle_started
               (Examples.source_of [] 5)))).
Proof.
  apply (advance_progress_n_speed 19 Examples.idle_started
           (Examples.source_of [] 5)).
  - intros n. simpl. lia.
  - unfold ledger_ok, progress_ok. vm_compute.
    repeat constructor; discriminate.
Defined.

(** X18: "Add Task" stores the new task, Pending at progress 0, under
    the id [task_(len+1)] and leaves the task of every other id, the
    cells, the history and the counter alone; the ledger is one longer
    when that id was free, and as long as before when it was in use. *)
Theorem add_task_lookup (f : Task.task_form) (st : SessionState) :
  let task_id := App.next_task_id (tasks_data st) in
  let st' := App.add_task f st in
  task_id = task_key (S (Dict.len (tasks_data st)))
  /\ Dict.get task_id (tasks_data st') = Some (Task.mkTask f Task.Pending 0)
  /\ (forall k, k <> task_id ->
        Dict.get k (tasks_data st') = Dict.get k (tasks_data st))
  /\ Dict.len (tasks_data st') =
     match Dict.get task_id (tasks_data st) with
     | Some _ => Dict.len (tasks_data st)
     | None => S (Dict.len (tasks_data st))
     end
  /\ cells_data st' = cells_data st
  /\ historical_data st' = historical_data st
  /\ current_time st' = current_time st.
Proof.
  cbv zeta. split; [apply next_task_id_key |].
  simpl. split; [apply get_set_same |].
  split; [intros k Hk; apply get_set_other; exact Hk |].
  split; [apply len_set | repeat split].
Qed.

(** X19: a Running task whose progress is 99 or more - in particular a
    Completed task whose "Start" button was pressed again - is Completed
    at progress 100 by the next call of [advance_progress], whatever the
    draw. *)
Theorem advance_progress_completes_restarted
    (st : SessionState) (s : Source) :
  randint_between 1 5 s ->
  Forall2
    (same_key
       (fun t t' =>
          Task.status t = Task.Running -> 99 <= Task.progress t ->
          t' = Task.mkTask (Task.form t) Task.Completed 100))
    (tasks_data st) (tasks_data (fst (App.advance_progress st s))).
Proof.
  intros Hs.
  destruct (TaskFacts.advance_progress_advanced st s Hs) as (H & _).
  eapply Forall2_impl; [| exact H].
  intros [k t] [k' t'] [Hk Ha]. split; [exact Hk |].
  simpl in *. intros Hrun Hp. unfold advanced in Ha. rewrite Hrun in Ha.
  destruct Ha as (r & Hr & Hprog & Hst & Hf).
  assert (Hp100 : Task.progress t' = 100) by lia.
  rewrite Hp100 in Hst. simpl in Hst.
  destruct t' as [f' s' p']. simpl in *.
  rewrite Hf, Hst, Hp100. reflexivity.
Qed.

Lemma advance_progress_completes_restarted_witness :
  Forall2
    (same_key
       (fun t t' =>
          Task.status t = Task.Running -> 99 <= Task.progress t ->
          t' = Task.mkTask (Task.form t) Task.Completed 100))
    (tasks_data Examples.idle_restarted)
    (tasks_data
       (fst (App.advance_progress Examples.idle_restarted
               (Examples.source_of [] 1)))).
Proof.
  apply (advance_progress_completes_restarted Examples.idle_restarted
           (Examples.source_of [] 1)).
  intros n. simpl. lia.
Defined.

Lemma advance_task_idle (k : string) (t : Task.task) (s : Source) :
  Task.status t <> Task.Running -> App.advance_task (k, t) s = ((k, t), s).
Proof.
  intros H. unfold App.advance_task.
  destruct (Task.status t); [reflexivity | congruence | reflexivity].
Qed.

Lemma for_each_idle (tasks : Dict.dict Task.task) (s : Source) :
  Forall (fun t => Task.status t <> Task.Running) (Dict.values tasks) ->
  for_each App.advance_task tasks s = (tasks, s).
Proof.
  unfold Dict.values.
  induction tasks as [| [k t] tasks IH]; intros H; [reflexivity |].
  simpl in H. inversion H as [| ? ? Ht Hrest]; subst.
  change (for_each App.advance_task ((k, t) :: tasks) s)
    with (bind (App.advance_task (k, t))
            (fun y => bind (for_each App.advance_task tasks)
                        (fun ys => ret (y :: ys))) s).
  unfold bind. rewrite (advance_task_idle k t s Ht), (IH Hrest).
  reflexivity.
Qed.

(** X13: when no task is Running, a call of [advance_progress] changes
    nothing in the session and consumes no draw. *)
Theorem advance_progress_idle (st : SessionState) (s : Source) :
  Forall (fun t => Task.status t <> Task.Running)
    (Dict.values (tasks_data st)) ->
  App.advance_progress st s = (st, s).
Proof.
  intros H. unfold App.advance_progress.
  destruct (Dict.truthy (tasks_data st)); [| reflexivity].
  unfold bind. rewrite (for_each_idle _ s H). unfold ret.
  destruct st. reflexivity.
Qed.

Lemma advance_progress_idle_witness :
  App.advance_progress Examples.two_added (Examples.source_of [] 3) =
  (Examples.two_added, Examples.source_of [] 3).
Proof.
  apply (advance_progress_idle Examples.two_added (Examples.source_of [] 3)).
  vm_compute. repeat constructor; discriminate.
Defined.

End LedgerExtras.

(* ================================================================= *)
(** ** Runs of the "Real-time Analysis" page *)

Module PageFacts.

Import PyNum PyNumFacts Random RandomFacts Inv Shape DictFacts KeyFacts
  SessionFacts Pages.

Lemma nonempty_truthy {V} (d : Dict.dict V) :
  d <> [] -> Dict.truthy d = true.
Proof. destruct d; [congruence | reflexivity]. Qed.

Lemma after_buttons_fields (pressed : option analysis_button)
    (st : SessionState) :
  cells_data (after_buttons pressed st) = cells_data st
  /\ tasks_data (after_buttons pressed st) = tasks_data st.
Proof. destruct pressed as [[| | |] |]; split; reflexivity. Qed.

(** The run ticks: "Update Data" was pressed or the simulation runs. *)
Lemma analysis_page_tick (pressed : option analysis_button) (now : datetime)
    (st : SessionState) (s : Source) :
  cells_data st <> [] ->
  pressed = Some UpdateData
  \/ simulation_running (after_buttons pressed st) = true ->
  analysis_page pressed now st s =
  App.simulate_real_time_data now (after_buttons pressed st) s.
Proof.
  intros Hne H. unfold analysis_page. rewrite (nonempty_truthy _ Hne). simpl.
  destruct H as [-> | H]; [reflexivity |].
  destruct pressed as [[| | |] |]; simpl in *;
    try discriminate; try reflexivity; rewrite H; reflexivity.
Qed.

(** The run reaches the task progress loop. *)
Lemma analysis_page_progress (pressed : option analysis_button)
    (now : datetime) (st : SessionState) (s : Source) :
  cells_data st <> [] ->
  pressed <> Some UpdateData ->
  simulation_running (after_buttons pressed st) = false ->
  analysis_page pressed now st s =
  App.advance_progress (after_buttons pressed st) s.
Proof.
  intros Hne Hp H. unfold analysis_page. rewrite (nonempty_truthy _ Hne).
  simpl. destruct pressed as [[| | |] |]; simpl in *;
    try congruence; try reflexivity; rewrite H; reflexivity.
Qed.

(** X14: a run of the "Real-time Analysis" page that ticks - "Update
    Data" was pressed, or the simulation is running once the buttons are
    handled - ticks exactly once and never reaches the task progress
    loop: the tasks are unchanged, each cell is rewritten by one tick,
    one sample per cell is appended and the counter grows by 1 (from 0
    when "Clear History" was the button). *)
Theorem analysis_page_running_freezes_tasks
    (pressed : option analysis_button) (now : datetime)
    (st : SessionState) (s : Source) :
  cells_data st <> [] ->
  pressed = Some UpdateData
  \/ simulation_running (after_buttons pressed st) = true ->
  let st0 := after_buttons pressed st in
  let st' := fst (analysis_page pressed now st s) in
  tasks_data st' = tasks_data st
  /\ Forall2 ticked (cells_data st) (cells_data st')
  /\ List.length (historical_data st') =
     (List.length (historical_data st0) + Dict.len (cells_data st))%nat
  /\ current_time st' = current_time st0 + 1.
Proof.
  intros Hne H st0 st'. subst st'.
  rewrite (analysis_page_tick pressed now st s Hne H). fold st0.
  destruct (after_buttons_fields pressed st) as [Hc Ht]. fold st0 in Hc, Ht.
  assert (Hne0 : Dict.truthy (cells_data st0) = true).
  { rewrite Hc. apply nonempty_truthy. exact Hne. }
  destruct (TickFacts.tick_nonempty now st0 s Hne0)
    as (H2 & Hhist & Htime & Htasks & _).
  rewrite Hc in H2.
  split; [congruence |]. split; [exact H2 |]. split; [| exact Htime].
  rewrite Hhist, length_app, length_map.
  unfold Dict.len. rewrite (Forall2_length H2). reflexivity.
Qed.

Lemma analysis_page_running_freezes_tasks_witness :
  let st0 := after_buttons (Some StartSimulation) Examples.one_cell_with_task in
  let st' :=
    fst (analysis_page (Some StartSimulation) 5000000
           Examples.one_cell_with_task (Examples.source_of [] 5)) in
  tasks_data st' = tasks_data Examples.one_cell_with_task
  /\ Forall2 ticked (cells_data Examples.one_cell_with_task) (cells_data st')
  /\ List.length (historical_data st') =
     (List.length (historical_data st0)
      + Dict.len (cells_data Examples.one_cell_with_task))%nat
  /\ current_time st' = current_time st0 + 1.
Proof.
  apply (analysis_page_running_freezes_tasks (Some StartSimulation) 5000000
           Examples.one_cell_with_task (Examples.source_of [] 5)).
  - discriminate.
  - right. reflexivity.
Defined.

(** X15: a run of the "Real-time Analysis" page changes the tasks only if
    the registry is not empty, the button pressed is neither "Update
    Data" nor "Start Simulation", and the simulation is paused (it was
    not running, or "Pause Simulation" is the button); such a run does
    not tick: the cells and the counter are those left by the button. *)
Theorem analysis_page_progress_needs_pause
    (pressed : option analysis_button) (now : datetime)
    (st : SessionState) (s : Source) :
  let st' := fst (analysis_page pressed now st s) in
  tasks_data st' <> tasks_data st ->
  cells_data st <> []
  /\ pressed <> Some UpdateData
  /\ pressed <> Some StartSimulation
  /\ (simulation_running st = false \/ pressed = Some PauseSimulation)
  /\ cells_data st' = cells_data st
  /\ current_time st' = current_time (after_buttons pressed st).
Proof.
  intros st' Hch.
  destruct (cells_data st) as [| item cells] eqn:Ecells.
  { exfalso. apply Hch. subst st'. unfold analysis_page.
    rewrite Ecells. reflexivity. }
  assert (Hne : cells_data st <> []) by (rewrite Ecells; discriminate).
  rewrite <- Ecells.
  destruct (after_buttons_fields pressed st) as [Hc Ht].
  assert (Hnotick :
            ~ (pressed = Some UpdateData
               \/ simulation_running (after_buttons pressed st) = true)).
  { intros H. apply Hch. subst st'.
    rewrite (analysis_page_tick pressed now st s Hne H).
    destruct (TickFacts.tick_nonempty now (after_buttons pressed st) s)
      as (_ & _ & _ & Htasks & _).
    - rewrite Hc. apply nonempty_truthy. exact Hne.
    - congruence. }
  assert (Hp : pressed <> Some UpdateData) by tauto.
  assert (Hr : simulation_running (after_buttons pressed st) = false).
  { destruct (simulation_running (after_buttons pressed st));
      [tauto | reflexivity]. }
  split; [exact Hne |]. split; [exact Hp |].
  split; [intros ->; discriminate |].
  split.
  { destruct pressed as [[| | |] |]; simpl in Hr;
      first [discriminate | right; reflexivity | left; exact Hr]. }
  subst st'. rewrite (analysis_page_progress pressed now st s Hne Hp Hr).
  unfold App.advance_progress.
  destruct (Dict.truthy (tasks_data (after_buttons pressed st)));
    [| split; [exact Hc | reflexivity]].
  unfold bind, ret. destruct (for_each _ _ s). simpl.
  split; [exact Hc | reflexivity].
Qed.

Lemma analysis_page_progress_needs_pause_witness :
  let st' :=
    fst (analysis_page None 5000000 Examples.one_cell_with_task
           (Examples.source_of [] 5)) in
  cells_data Examples.one_cell_with_task <> []
  /\ (@None analysis_button) <> Some UpdateData
  /\ (@None analysis_button) <> Some StartSimulation
  /\ (simulation_running Examples.one_cell_with_task = false
      \/ None = Some PauseSimulation)
  /\ cells_data st' = cells_data Examples.one_cell_with_task
  /\ current_time st' =
     current_time (after_buttons None Examples.one_cell_with_task).
Proof.
  apply (analysis_page_progress_needs_pause None 5000000
           Examples.one_cell_with_task (Examples.source_of [] 5)).
  vm_compute. discriminate.
Defined.

End PageFacts.

(* ================================================================= *)
(** ** The capacity stored by a tick, over any float arithmetic *)

Module FloatFacts.

Import PyNum Random.

(** The tick of [App] is the tick over the exact arithmetic. *)
Lemma exact_tick (now : datetime) (st : SessionState) (s : Source) :
  Fp.simulate_real_time_data Fp.exact now st s =
  App.simulate_real_time_data now st s.
Proof. reflexivity. Qed.

(** One iteration consumes three uniform draws, in the order voltage,
    temperature, current. *)
Lemma update_cell_draws (A : Fp.arith) (k : string) (c : Cell.cell)
    (s : Source) :
  Fp.update_cell A (k, c) s =
  ((k, Fp.store_cell A c (uniform_draws s 0) (uniform_draws s 1)
         (uniform_draws s 2)),
   mkSource (fun n => uniform_draws s (S (S (S n)))) (randint_draws s)).
Proof. reflexivity. Qed.

(** The cell at position [i] is rewritten with the draws [3 i], [3 i + 1]
    and [3 i + 2] of the source the tick starts from. *)
Lemma for_each_update_nth (A : Fp.arith) (cells : Dict.dict Cell.cell) :
  forall (s : Source) (i : nat) (k : string) (c : Cell.cell),
    nth_error cells i = Some (k, c) ->
    nth_error (fst (for_each (Fp.update_cell A) cells s)) i =
    Some (k, Fp.store_cell A c (uniform_draws s (3 * i))
               (uniform_draws s (3 * i + 1)) (uniform_draws s (3 * i + 2))).
Proof.
  induction cells as [| [k0 c0] cells IH]; intros s i k c Hn.
  - destruct i; discriminate.
  - change (for_each (Fp.update_cell A) ((k0, c0) :: cells) s)
      with (bind (Fp.update_cell A (k0, c0))
              (fun y => bind (for_each (Fp.update_cell A) cells)
                          (fun ys => ret (y :: ys))) s).
    unfold bind at 1. rewrite update_cell_draws.
    unfold bind.
    specialize (IH (mkSource (fun n => uniform_draws s (S (S (S n))))
                      (randint_draws s))).
    destruct (for_each (Fp.update_cell A) cells _) as [ys s'].
    unfold ret. cbn [fst] in *.
    destruct i as [| i]; simpl in Hn.
    + injection Hn as -> ->. reflexivity.
    + cbn [nth_error]. rewrite (IH i k c Hn). cbn [uniform_draws].
      replace (3 * S i)%nat with (S (S (S (3 * i)))) by lia.
      replace (S (S (S (3 * i))) + 1)%nat with (S (S (S (3 * i + 1)))) by lia.
      replace (S (S (S (3 * i))) + 2)%nat with (S (S (S (3 * i + 2)))) by lia.
      reflexivity.
Qed.

(** C1, as the code has it: whatever the float addition, multiplication
    and rounding are, after a tick the cell at position [i] stores as
    capacity the product of its clamped voltage and its clamped current,
    both as they are before they are rounded, rounded to 2 decimals.  The
    clamped voltage is the previous voltage plus draw [3 i] of the tick,
    clamped to the cell's bounds; the clamped current is the previous
    current plus draw [3 i + 2], clamped to be at least 0.  The stored
    voltage and the stored current are these two values rounded to 2
    decimals each.  The tick of [App] is the instance with the exact
    arithmetic. *)
Theorem tick_capacity_of_clamped_values
    (A : Fp.arith) (now : datetime) (st : SessionState) (s : Source)
    (i : nat) (k : string) (c : Cell.cell) :
  nth_error (cells_data st) i = Some (k, c) ->
  let voltage_change := uniform_draws s (3 * i) in
  let current_change := uniform_draws s (3 * i + 2) in
  let nv := Fp.new_voltage A c voltage_change in
  let nc := Fp.new_current A c current_change in
  (exists c',
     nth_error (cells_data (fst (Fp.simulate_real_time_data A now st s))) i
     = Some (k, c')
     /\ Cell.capacity c' = Fp.round A (Fp.mul A nv nc) 2
     /\ Cell.voltage c' = Fp.round A nv 2
     /\ Cell.current c' = Fp.round A nc 2)
  /\ Fp.simulate_real_time_data Fp.exact now st s =
     App.simulate_real_time_data now st s.
Proof.
  intros Hn voltage_change current_change nv nc.
  split; [| reflexivity].
  unfold Fp.simulate_real_time_data.
  assert (Hne : Dict.truthy (cells_data st) = true).
  { destruct (cells_data st); [destruct i; discriminate | reflexivity]. }
  rewrite Hne. unfold bind, ret.
  pose proof (for_each_update_nth A (cells_data st) s i k c Hn) as H.
  destruct (for_each (Fp.update_cell A) (cells_data st) s) as [cells s'].
  cbn [fst cells_data] in *.
  eexists. split; [exact H |]. repeat split.
Qed.

Lemma tick_capacity_of_clamped_values_witness :
  let s := snd Examples.one_cell_created in
  let nv := Fp.new_voltage Fp.exact Examples.lfp_cell (uniform_draws s 0) in
  let nc := Fp.new_current Fp.exact Examples.lfp_cell (uniform_draws s 2) in
  exists c',
    nth_error
      (cells_data
         (fst (Fp.simulate_real_time_data Fp.exact 0 Examples.one_cell s))) 0
    = Some ("cell_1_lfp", c')
    /\ Cell.capacity c' = Fp.round Fp.exact (Fp.mul Fp.exact nv nc) 2
    /\ Cell.voltage c' = Fp.round Fp.exact nv 2
    /\ Cell.current c' = Fp.round Fp.exact nc 2.
Proof.
  apply (tick_capacity_of_clamped_values Fp.exact 0 Examples.one_cell
           (snd Examples.one_cell_created) 0 "cell_1_lfp" Examples.lfp_cell).
  reflexivity.
Defined.

End FloatFacts.

(* ================================================================= *)
(** ** Completed tasks across actions *)

Module CompletedFacts.

Import Random RandomFacts Inv DictFacts.

(** A [Sparing.step] is a step of the application. *)
Lemma sparing_step_is_step (id : string) (st st' : SessionState) :
  Sparing.step id st st' -> Inv.step st st'.
Proof.
  intros H. destruct H; try (econstructor; eassumption); constructor.
Qed.

Lemma get_same_key (R : Task.task -> Task.task -> Prop)
    (tasks tasks' : Dict.dict Task.task) (k : string) (t : Task.task) :
  Forall2 (same_key R) tasks tasks' ->
  Dict.get k tasks = Some t ->
  exists t', Dict.get k tasks' = Some t' /\ R t t'.
Proof.
  induction 1 as [| [k0 t0] [k1 t1] l l' [Hk HR] _ IH]; simpl;
    [discriminate |].
  simpl in Hk, HR. subst k1.
  destruct (String.eqb k k0); [| exact IH].
  intros Hg. injection Hg as <-. exists t1. split; [reflexivity | exact HR].
Qed.

(** An action that spares the task [id] keeps it as it is when it is
    Completed. *)
Lemma step_keeps_completed (id : string) (t : Task.task)
    (st st' : SessionState) :
  Sparing.step id st st' ->
  Dict.get id (tasks_data st) = Some t ->
  Task.status t = Task.Completed ->
  Dict.get id (tasks_data st') = Some t.
Proof.
  intros H Hg Hc. destruct H as
    [ch count src st _ | now src st | st | st | b st | f st Hid
    | task_id st st' Hid H | task_id st st' Hid H | src st Hs].
  - destruct (CellFacts.create_cells_fields (label ch) count st src)
      as (_ & -> & _). exact Hg.
  - destruct (TickFacts.tick_cells now st src) as [[Hne _] | [_ ->]];
      [| exact Hg].
    destruct (TickFacts.tick_nonempty now st src Hne)
      as (_ & _ & _ & -> & _). exact Hg.
  - exact Hg.
  - exact Hg.
  - exact Hg.
  - simpl. rewrite get_set_other; [exact Hg |]. congruence.
  - unfold App.start_task in H.
    destruct (Dict.get task_id (tasks_data st)); [| discriminate].
    injection H as <-. simpl.
    rewrite get_set_other; [exact Hg |]. congruence.
  - unfold App.delete_task in H.
    destruct (Dict.get task_id (tasks_data st)); [| discriminate].
    injection H as <-. simpl.
    rewrite LedgerExtras.get_del_other; [exact Hg |]. congruence.
  - destruct (TaskFacts.advance_progress_advanced st src Hs) as (H2 & _).
    destruct (get_same_key advanced _ _ id t H2 Hg) as (t' & Hg' & Ha).
    unfold advanced in Ha. rewrite Hc in Ha. subst t'. exact Hg'.
Qed.

Lemma steps_keep_completed (id : string) (t : Task.task)
    (st st' : SessionState) :
  Sparing.steps id st st' ->
  Dict.get id (tasks_data st) = Some t ->
  Task.status t = Task.Completed ->
  Dict.get id (tasks_data st') = Some t.
Proof.
  induction 1 as [st | st st1 st2 Hstep _ IH]; intros Hg Hc;
    [exact Hg |].
  apply IH; [| exact Hc].
  exact (step_keeps_completed id t st st1 Hstep Hg Hc).
Qed.

(** C8, as the code has it: over any number of calls of
    [advance_progress] the progress of every task never decreases and
    never exceeds 100, and a task that was Running is Completed after a
    call exactly when its progress is 100 then.  A Completed task then
    stays as it is under any subsequent sequence of actions - ticks,
    "Add Cells", "Clear All Cells", "Clear History", start and pause of
    the simulation, [advance_progress], and "Add Task", "Start" and
    "Delete" of other ids - as long as "Start" is not pressed on it:
    "Start" makes any task Running, a Completed one included, and keeps
    its progress.  ("Delete" of the task and an "Add Task" that computes
    its id are outside this statement.) *)
Theorem progress_monotone_completed_persists
    (n : nat) (st : SessionState) (s : Source) :
  randint_between 1 5 s ->
  ledger_ok st ->
  Forall2
    (fun item item' =>
       fst item' = fst item /\
       let t := snd item in
       let t' := snd item' in
       Task.progress t <= Task.progress t' <= 100
       /\ (Task.status t = Task.Running -> (1 <= n)%nat ->
           Task.status t' =
           if Task.progress t' =? 100 then Task.Completed else Task.Running)
       /\ (Task.status t = Task.Completed -> t' = t))
    (tasks_data st) (tasks_data (fst (App.advance_progress_n n st s)))
  /\ (forall id t st1 st2,
        Dict.get id (tasks_data st1) = Some t ->
        Task.status t = Task.Completed ->
        Sparing.steps id st1 st2 ->
        Dict.get id (tasks_data st2) = Some t)
  /\ (forall task_id t,
        Dict.get task_id (tasks_data st) = Some t ->
        exists st',
          App.start_task task_id st = Some st'
          /\ Dict.get task_id (tasks_data st') =
             Some (Task.mkTask (Task.form t) Task.Running (Task.progress t))).
Proof.
  intros Hs Hok. split; [| split].
  - eapply Forall2_impl;
      [| apply TaskFacts.advance_progress_n_evolves; [exact Hs |]].
    + intros [k t] [k' t'] [Hk (_ & Hp & _ & Hnr & Hrun & _)]. simpl in *.
      split; [exact Hk |]. split; [exact Hp |]. split; [exact Hrun |].
      intros Hc. apply Hnr. rewrite Hc. discriminate.
    + eapply Forall_impl; [| exact Hok]. intros t [_ H]. exact H.
  - intros id t st1 st2 Hg Hc Hsteps.
    exact (steps_keep_completed id t st1 st2 Hsteps Hg Hc).
  - intros task_id t Hget. unfold App.start_task. rewrite Hget.
    eexists. split; [reflexivity |]. simpl. apply get_set_same.
Qed.

Lemma progress_monotone_completed_persists_witness :
  Forall2
    (fun item item' =>
       fst item' = fst item /\
       let t := snd item in
       let t' := snd item' in
       Task.progress t <= Task.progress t' <= 100
       /\ (Task.status t = Task.Running -> (1 <= 7)%nat ->
           Task.status t' =
           if Task.progress t' =? 100 then Task.Completed else Task.Running)
       /\ (Task.status t = Task.Completed -> t' = t))
    (tasks_data Examples.idle_started)
    (tasks_data
       (fst (App.advance_progress_n 7 Examples.idle_started
               (Examples.source_of [] 2))))
  /\ (forall st2,
        Sparing.steps "task_1" Examples.idle_completed st2 ->
        Dict.get "task_1" (tasks_data st2) =
        Some (Task.mkTask (Task.IDLE 1800) Task.Completed 100)).
Proof.
  destruct (progress_monotone_completed_persists 7 Examples.idle_started
              (Examples.source_of [] 2)) as (H1 & H2 & _).
  - intros n. simpl. lia.
  - unfold ledger_ok, progress_ok. vm_compute.
    repeat constructor; discriminate.
  - split; [exact H1 |].
    intros st2 Hsteps.
    apply (H2 "task_1" _ Examples.idle_completed st2);
      [vm_compute; reflexivity | reflexivity | exact Hsteps].
Defined.

End CompletedFacts.
